(** * eBay sales lookup: a shallow embedding of [netlify/functions/ebaySales.ts]

    The development follows the source file top to bottom.  JavaScript
    values are represented as follows.

    - A [number] is an IEEE-754 binary64 value, i.e. a primitive [float].
      [undefined] is the [None] of an [option].
    - A [string] is a sequence of code units; the embedding covers the code
      units below 256 (one [ascii] per code unit).
    - [Date.now()] is an integral number of milliseconds, kept in [Z].
    - An array is a [list]; reading past its end gives [undefined].
    - The libraries the function calls ([cheerio], [parsecurrency],
      [scrapingbee], [fetch]) are not part of the repository: their answers
      are inputs of the model. *)

From Stdlib Require Import ZArith List Bool String Ascii Floats Uint63 Lia.
From Stdlib Require Import Permutation.
From Stdlib Require Import DecimalString.
Import ListNotations.

Set Implicit Arguments.

(* ================================================================= *)
(** ** Strings *)

Section JsString.
Open Scope string_scope.

(** Code units that [String.prototype.trim] removes (WhiteSpace and
    LineTerminator below 256). *)
Definition isWhiteSpace (c : ascii) : bool :=
  let n := nat_of_ascii c in
  ((9 <=? n)%nat && (n <=? 13)%nat) || (n =? 32)%nat || (n =? 160)%nat.

Fixpoint trimStart (s : string) : string :=
  match s with
  | EmptyString => EmptyString
  | String c s' => if isWhiteSpace c then trimStart s' else s
  end.

Fixpoint trimEnd (s : string) : string :=
  match s with
  | EmptyString => EmptyString
  | String c s' =>
      match trimEnd s' with
      | EmptyString => if isWhiteSpace c then EmptyString else String c EmptyString
      | t => String c t
      end
  end.

Definition trim (s : string) : string := trimEnd (trimStart s).

(** Truthiness of a string: every string but the empty one. *)
Definition truthy (s : string) : bool := negb (String.eqb s "").

(** [a || b] on a possibly undefined string [a]. *)
Definition orElse (a : option string) (b : string) : string :=
  match a with
  | Some s => if truthy s then s else b
  | None => b
  end.

Definition lowerUnit (c : ascii) : ascii :=
  let n := nat_of_ascii c in
  if ((65 <=? n) && (n <=? 90))%nat
     || ((192 <=? n) && (n <=? 222) && negb (n =? 215))%nat
  then ascii_of_nat (n + 32) else c.

Fixpoint toLowerCase (s : string) : string :=
  match s with
  | EmptyString => EmptyString
  | String c s' => String (lowerUnit c) (toLowerCase s')
  end.

(** [s.includes(pat)] *)
Fixpoint includes (s pat : string) : bool :=
  prefix pat s
  || match s with
     | EmptyString => false
     | String _ s' => includes s' pat
     end.

Fixpoint dropUnits (n : nat) (s : string) : string :=
  match n, s with
  | S n', String _ s' => dropUnits n' s'
  | _, _ => s
  end.

(** [s.replace(pat, repl)] with a string pattern: the first occurrence only. *)
Fixpoint replace (s pat repl : string) : string :=
  if prefix pat s then repl ++ dropUnits (String.length pat) s
  else match s with
       | EmptyString => EmptyString
       | String c s' => String c (replace s' pat repl)
       end.

(** [s.replace(/ /g, '+')] *)
Fixpoint spacesToPlus (s : string) : string :=
  match s with
  | EmptyString => EmptyString
  | String c s' =>
      String (if Ascii.eqb c " "%char then "+"%char else c) (spacesToPlus s')
  end.

(** Decimal rendering of a non-negative integer, as a template literal
    renders an HTTP status. *)
Definition natToString (n : nat) : string :=
  NilZero.string_of_uint (Nat.to_uint n).

End JsString.

(* ================================================================= *)
(** ** Numbers *)

Section JsNumber.
Open Scope float_scope.

(** [undefined] coerced by an arithmetic operator. *)
Definition toNumber (v : option float) : float :=
  match v with
  | Some x => x
  | None => nan
  end.

(** Truthiness of a number: anything but [0], [-0] and [NaN]. *)
Definition numTruthy (x : float) : bool :=
  negb (PrimFloat.eqb x 0) && PrimFloat.eqb x x.

Definition ofZ (z : Z) : float :=
  if (z <? 0)%Z then - PrimFloat.of_uint63 (Uint63.of_Z (- z))
  else PrimFloat.of_uint63 (Uint63.of_Z z).

Definition ofNat (n : nat) : float := ofZ (Z.of_nat n).

(** [Math.floor]: the largest integral value not above the argument;
    zeros, infinities and NaN are returned as they are. *)
Definition Math_floor (x : float) : float :=
  match Prim2SF x with
  | S754_finite s m e =>
      if (0 <=? e)%Z then x
      else ofZ ((if s then Z.neg m else Z.pos m) / 2 ^ (- e))
  | _ => x
  end.

(** The array index a number denotes when used as a property key; [None]
    when the key is not an array index (negative, fractional, NaN, ...). *)
Definition arrayIndex (x : float) : option nat :=
  match Prim2SF x with
  | S754_zero _ => Some O
  | S754_finite false m e =>
      if (0 <=? e)%Z then
        (if (Z.pos m * 2 ^ e <? 2 ^ 32 - 1)%Z
         then Some (Z.to_nat (Z.pos m * 2 ^ e)) else None)
      else if (Z.pos m mod 2 ^ (- e) =? 0)%Z
           then Some (Z.to_nat (Z.pos m / 2 ^ (- e))) else None
  | _ => None
  end.

(** [arr[k]] for a numeric key [k]. *)
Definition at_ (arr : list (option float)) (k : float) : option float :=
  match arrayIndex k with
  | Some i => match nth_error arr i with
              | Some v => v
              | None => None
              end
  | None => None
  end.

End JsNumber.

(* ================================================================= *)
(** ** [Array.prototype.sort] with the comparator [(a, b) => a - b] *)

Section Sort.
Open Scope float_scope.

Definition compareFn (a b : float) : float := a - b.

(** A comparator result above zero moves [a] behind [b]; a NaN result
    counts as zero.  The sort is stable.  The comparator is a consistent
    comparison exactly when no element is NaN, and then every conforming
    sort produces this order.  With a NaN among the elements ECMAScript
    leaves the order to the engine; the properties below that depend on
    the order are stated for arrays without NaN. *)
Fixpoint insertSorted (x : float) (l : list float) : list float :=
  match l with
  | [] => [x]
  | y :: l' =>
      if PrimFloat.ltb 0 (compareFn x y) then y :: insertSorted x l'
      else x :: l
  end.

Fixpoint sortNumbers (l : list float) : list float :=
  match l with
  | [] => []
  | x :: l' => insertSorted x (sortNumbers l')
  end.

Fixpoint defined (arr : list (option float)) : list float :=
  match arr with
  | [] => []
  | Some x :: arr' => x :: defined arr'
  | None :: arr' => defined arr'
  end.

Fixpoint undefinedCount (arr : list (option float)) : nat :=
  match arr with
  | [] => O
  | Some _ :: arr' => undefinedCount arr'
  | None :: arr' => S (undefinedCount arr')
  end.

(** [[...arr].sort((a, b) => a - b)]: [undefined] elements are never handed
    to the comparator and end up behind every other element. *)
Definition sortArray (arr : list (option float)) : list (option float) :=
  map Some (sortNumbers (defined arr)) ++ repeat None (undefinedCount arr).

End Sort.

(* ================================================================= *)
(** ** [quantile] and [calculateSalesMetrics] *)

Section Stats.
Open Scope float_scope.

Definition quantile (arr : list (option float)) (q : float) : option float :=
  let sorted := sortArray arr in
  let pos := (ofNat (List.length sorted) - 1) * q in
  let base := Math_floor pos in
  let rest := pos - base in
  match at_ sorted (base + 1) with
  | Some next =>
      Some (toNumber (at_ sorted base) + rest * (next - toNumber (at_ sorted base)))
  | None => at_ sorted base
  end.

End Stats.

(* ================================================================= *)
(** ** Data *)

(** The object [parsecurrency] returns (the fields the source reads). *)
Module Parsed.
Record t := { value : float; currency : string; symbol : string }.
End Parsed.

(** What the selectors of [extractSellItemsFromHTML] read from one
    [.su-card-container] element of the loaded markup. *)
Module Card.
Record t := {
  title : string;        (* .s-card__title .primary, text() *)
  price : string;        (* .s-card__price, text() *)
  condition : string;    (* .s-card__subtitle span, first(), text() *)
  shippingInfo : list string
                         (* .su-card-container__attributes__primary, children() *)
}.
End Card.

(** The markup after [cheerio.load]: its cards in document order, which is
    the order [each] visits them in. *)
Definition Document := list Card.t.

(** The text [getShippingCost] returns: the literal ['Unknown'], or the
    decimal rendering of a number (kept as that number). *)
Inductive ShippingText :=
| ShipUnknown
| ShipCost (cost : float).

(** A listing object.  A field that the object literal does not set, or
    sets to [undefined], is [None]. *)
Module Item.
Record t := {
  title : string;
  price : option float;
  currency : option string;
  soldDate : option string;
  condition : option string;
  imageUrl : option string;
  itemUrl : option string;
  shipping : option ShippingText
}.
End Item.

Inductive JsError :=
| TypeError (message : string)
| Error (message : string).

(** The [shipping] member of a provider result: absent, a text, or an
    object with [raw] and [extracted]. *)
Inductive ShippingField :=
| ShippingAbsent
| ShippingString (text : string)
| ShippingObject (raw : option string) (extracted : option float).

(** One element of [organic_results]. *)
Module Organic.
Record priceField := { raw : option string }.
Record t := {
  title : option string;
  price : option priceField;
  thumbnail : option string;
  link : option string;
  sold_at : option string;
  shipping : ShippingField;
  condition : option string
}.
End Organic.

Record Stats := {
  count : nat;
  p25 : option float;
  median : option float;
  p75 : option float
}.

Record Payload := {
  p_query : string;
  p_stats : Stats;
  p_items : list Item.t;
  p_source : string;
  p_cached : bool
}.

(** The module-level [cache] object. *)
Record Cache := {
  data : option Payload;
  timestamp : Z;
  query : string
}.

Definition initialCache : Cache :=
  {| data := None; timestamp := 0; query := "" |}.

Definition CACHE_DURATION : Z := 60 * 60 * 1000.

(** The value handed to [JSON.stringify] (or the plain text) of a response. *)
Inductive Body :=
| ErrorBody (error : string)
| PayloadBody (payload : Payload)
| TextBody (text : string)
| FailureBody (error : string) (message : JsError).

(** The three [Access-Control-Allow-*] headers, all ['*']. *)
Inductive Headers := AllowAll.

Record Response := {
  statusCode : nat;
  headers : option Headers;
  body : Body
}.

Record Event := {
  q : option string;          (* queryStringParameters.q *)
  httpMethod : string
}.

(* ================================================================= *)
(** ** The outside world *)

Record SerpResponse := {
  ok : bool;
  status : nat;
  json : JsError + option (list Organic.t)   (* r.json(), then organic_results *)
}.

(** Everything one invocation reads from outside. *)
Record World := {
  now_check : Z;                       (* Date.now() at the cache check *)
  now_store : Z;                       (* Date.now() at the cache write *)
  now_iso : string;                    (* new Date().toISOString() *)
  SERP_KEY : option string;            (* process.env.SERP_KEY *)
  scrapingbee : JsError + Document;    (* client.get, response.data, cheerio.load *)
  serpapi : JsError + SerpResponse     (* fetch *)
}.

(** Calls that leave the handler. *)
Inductive Call :=
| ScrapingBeeGet (url : string)
| FetchSerp (q : string)
| SerpApiGet (params : list (string * string)).

Definition isFallbackCall (c : Call) : bool :=
  match c with
  | ScrapingBeeGet _ => false
  | _ => true
  end.

(* ================================================================= *)
(** ** A state and exception monad for the handler *)

Record Store := {
  cache : Cache;
  calls : list Call
}.

Definition M (A : Type) : Type := Store -> (JsError + A) * Store.

Definition ret {A} (a : A) : M A := fun s => (inr a, s).

Definition bind {A B} (m : M A) (k : A -> M B) : M B :=
  fun s =>
    match m s with
    | (inl e, s') => (inl e, s')
    | (inr a, s') => k a s'
    end.

Definition throw {A} (e : JsError) : M A := fun s => (inl e, s).

Definition liftE {A} (r : JsError + A) : M A := fun s => (r, s).

Definition getCache : M Cache := fun s => (inr (cache s), s).

Definition putCache (c : Cache) : M unit :=
  fun s => (inr tt, {| cache := c; calls := calls s |}).

Definition setData (d : option Payload) : M unit :=
  bind getCache (fun c =>
    putCache {| data := d; timestamp := timestamp c; query := query c |}).

Definition setTimestamp (t : Z) : M unit :=
  bind getCache (fun c =>
    putCache {| data := data c; timestamp := t; query := query c |}).

Definition setQuery (s : string) : M unit :=
  bind getCache (fun c =>
    putCache {| data := data c; timestamp := timestamp c; query := s |}).

Definition record (c : Call) : M unit :=
  fun s => (inr tt, {| cache := cache s; calls := calls s ++ [c] |}).

Declare Scope js_scope.
Delimit Scope js_scope with js.
Notation "x <- c1 ;; c2" := (bind c1 (fun x => c2))
  (at level 61, c1 at next level, right associativity) : js_scope.
Notation "' pat <- c1 ;; c2" := (bind c1 (fun pat => c2))
  (at level 61, pat pattern, c1 at next level, right associativity) : js_scope.
Notation "c1 ;; c2" := (bind c1 (fun _ => c2))
  (at level 61, right associativity) : js_scope.

(** [arr.map(f)] for an [f] that may throw: the first failure, in array
    order, ends the traversal. *)
Fixpoint mapE {A B} (f : A -> JsError + B) (l : list A) : JsError + list B :=
  match l with
  | [] => inr []
  | a :: l' =>
      match f a with
      | inl e => inl e
      | inr b =>
          match mapE f l' with
          | inl e => inl e
          | inr bs => inr (b :: bs)
          end
      end
  end.

(* ================================================================= *)
(** ** The functions of the source file *)

Definition calculateSalesMetrics (items : list Item.t) : Stats :=
  let totalSales := List.length items in
  let p75 := quantile (map Item.price items) 0.75 in
  let p25 := quantile (map Item.price items) 0.25 in
  let median := quantile (map Item.price items) 0.5 in
  {| count := totalSales; p25 := p25; median := median; p75 := p75 |}.

(** Lines 36-38: [cache.timestamp ? Date.now() - cache.timestamp : null]. *)
Definition durationFromLastFetch (now : Z) (c : Cache) : option Z :=
  if (timestamp c =? 0)%Z then None
  else Some (now - timestamp c)%Z.

(** The test of lines 49-54; on success the value that is sent back. *)
Definition lookup (durationFromLastFetch : option Z) (q : string) (c : Cache)
  : option Payload :=
  match data c, durationFromLastFetch with
  | Some cached, Some duration =>
      if (duration <? CACHE_DURATION)%Z && String.eqb (query c) q
      then Some cached else None
  | _, _ => None
  end.

Section Program.
Open Scope string_scope.

(** [require('parsecurrency')]: [null] when the text holds no currency
    expression. *)
Variable parseCurrency : string -> option Parsed.t.

Definition parsePrice (priceStr : string) : option Parsed.t :=
  if String.eqb (trim priceStr) "" then None
  else parseCurrency priceStr.

(** [shippingCost.toString()] fails on [undefined]. *)
Definition costToString (shippingCost : option float) : JsError + ShippingText :=
  match shippingCost with
  | Some c => inr (ShipCost c)
  | None =>
      inl (TypeError "Cannot read properties of undefined (reading 'toString')")
  end.

Definition getShippingCost (shipping : ShippingField) : JsError + ShippingText :=
  let shippingCost := Some 0%float in
  match shipping with
  | ShippingString shipping =>
      if negb (includes (toLowerCase shipping) "free")
         && negb (includes (toLowerCase shipping) "bids")
         && includes shipping "delivery"
      then
        let formattedShipping := replace shipping " delivery" "" in
        let formattedShipping := replace formattedShipping "+" "" in
        let parsedShipping := parsePrice formattedShipping in
        match parsedShipping with
        | Some parsed => costToString (Some (Parsed.value parsed))
        | None => costToString shippingCost
        end
      else if negb (includes (toLowerCase shipping) "free")
              && includes (toLowerCase shipping) "bids"
      then inr ShipUnknown
      else costToString shippingCost
  | ShippingObject _ extracted => costToString extracted
  | ShippingAbsent =>
      inl (TypeError "Cannot read properties of undefined (reading 'extracted')")
  end.

(** The test of line 173: [title !== 'Shop on eBay' && condition]. *)
Definition emitted (card : Card.t) : bool :=
  negb (String.eqb (Card.title card) "Shop on eBay")
  && truthy (Card.condition card).

(** The object literal [{ title, price: parsedPrice?.value }]. *)
Definition resultData (card : Card.t) : Item.t :=
  let parsedPrice := parsePrice (Card.price card) in
  {| Item.title := Card.title card;
     Item.price := option_map Parsed.value parsedPrice;
     Item.currency := None;
     Item.soldDate := None;
     Item.condition := None;
     Item.imageUrl := None;
     Item.itemUrl := None;
     Item.shipping := None |}.

(** The [each] loop pushes onto [items] in visiting order.  The shipping
    text and the tidied condition are computed by the source and dropped. *)
Fixpoint extractSellItemsFromHTML (html : Document) (query : string)
  : list Item.t :=
  match html with
  | [] => []
  | element :: rest =>
      if emitted element
      then resultData element :: extractSellItemsFromHTML rest query
      else extractSellItemsFromHTML rest query
  end.

(** The arrow function handed to [map] in [fetchSerp]. *)
Definition toSoldItem (now_iso : string) (it : Organic.t) : JsError + Item.t :=
  match Organic.price it with
  | None => inl (TypeError "Cannot read properties of undefined (reading 'raw')")
  | Some price =>
      let p := parsePrice (orElse (Organic.raw price) (orElse (Organic.raw price) "")) in
      match getShippingCost (Organic.shipping it) with
      | inl e => inl e
      | inr shipping =>
          inr {| Item.title := orElse (Organic.title it) "";
                 Item.price :=
                   Some (match p with
                         | Some parsed =>
                             if numTruthy (Parsed.value parsed)
                             then Parsed.value parsed else 0%float
                         | None => 0%float
                         end);
                 Item.currency :=
                   Some (orElse (option_map Parsed.currency p) "USD");
                 Item.imageUrl := Some (orElse (Organic.thumbnail it) "");
                 Item.itemUrl := Some (orElse (Organic.link it) "");
                 Item.soldDate := Some (orElse (Organic.sold_at it) now_iso);
                 Item.shipping := Some shipping;
                 Item.condition := Some (orElse (Organic.condition it) "Unknown") |}
      end
  end.

(** The predicate handed to [filter] in [fetchSerp]:
    [x.title && x.itemUrl && x.price > 0]. *)
Definition retained (x : Item.t) : bool :=
  truthy (Item.title x)
  && match Item.itemUrl x with
     | Some u => truthy u
     | None => false
     end
  && PrimFloat.ltb 0 (toNumber (Item.price x)).

Definition serpParams (q SERP_KEY : string) : list (string * string) :=
  [ ("engine", "ebay"); ("ebay_domain", "ebay.com"); ("q", q);
    ("sold", "false"); ("completed", "false"); ("_nkw", q);
    ("LH_PrefLoc", "3"); ("api_key", SERP_KEY) ].

Open Scope js_scope.

Definition fetchSerp (w : World) (q : string) : M (option (list Item.t)) :=
  record (FetchSerp q) ;;
  match SERP_KEY w with
  | None => ret None
  | Some SERP_KEY =>
      if negb (truthy SERP_KEY) then ret None
      else
        record (SerpApiGet (serpParams q SERP_KEY)) ;;
        r <- liftE (serpapi w) ;;
        if negb (ok r) then
          let error := "SerpAPI ERROR " ++ natToString (status r) in
          throw (Error error)
        else
          j <- liftE (json r) ;;
          mapped <- liftE (mapE (toSoldItem (now_iso w))
                                (match j with Some l => l | None => [] end)) ;;
          let items := filter retained mapped in
          ret (Some items)
  end.

Definition scrapURL (formatItemName : string) : string :=
  "https://www.ebay.com/sch/i.html?_nkw=" ++ formatItemName
    ++ "&_sop=12&LH_Active=1&_ipg=240&LH_PrefLoc=3".

Definition mkPayload (q : string) (stats : Stats) (items : list Item.t)
           (source : string) (cached : bool) : Payload :=
  {| p_query := q; p_stats := stats; p_items := items;
     p_source := source; p_cached := cached |}.

(** The body of the [try] block. *)
Definition handlerTry (w : World) (event : Event) : M Response :=
  cache0 <- getCache ;;
  let durationFromLastFetch := durationFromLastFetch (now_check w) cache0 in
  let formatItemName :=
    match q event with Some q => spacesToPlus q | None => "" end in
  match q event with
  | None =>
      ret {| statusCode := 400; headers := None;
             body := ErrorBody "Missing query parameter q" |}
  | Some q =>
      if negb (truthy q) || String.eqb (trim q) "" then
        ret {| statusCode := 400; headers := None;
               body := ErrorBody "Missing query parameter q" |}
      else
        match lookup durationFromLastFetch q cache0 with
        | Some cached =>
            ret {| statusCode := 200; headers := Some AllowAll;
                   body := PayloadBody cached |}
        | None =>
            if String.eqb (httpMethod event) "OPTIONS" then
              ret {| statusCode := 200; headers := Some AllowAll;
                     body := TextBody "Preflight check successful" |}
            else
              record (ScrapingBeeGet (scrapURL formatItemName)) ;;
              rawHTML <- liftE (scrapingbee w) ;;
              let items := extractSellItemsFromHTML rawHTML q in
              let stats := calculateSalesMetrics items in
              let source := "scrapingbee" in
              '(items, stats, source) <-
                (if (List.length items <? 3)%nat then
                   fetched <- fetchSerp w q ;;
                   let serpItems := match fetched with Some l => l | None => [] end in
                   let items := serpItems in
                   let stats := calculateSalesMetrics items in
                   let source := "serpapi" in
                   setData (Some (mkPayload q stats items source true)) ;;
                   setTimestamp (now_store w) ;;
                   setQuery q ;;
                   ret (items, stats, source)
                 else
                   let stats := calculateSalesMetrics items in
                   setData (Some (mkPayload q stats items source true)) ;;
                   setTimestamp (now_store w) ;;
                   setQuery q ;;
                   ret (items, stats, source)) ;;
              ret {| statusCode := 200; headers := Some AllowAll;
                     body := PayloadBody (mkPayload q stats items source false) |}
        end
  end.

(** One invocation: the [try] block, and the [catch] clause around it.
    The result is the response, the cache the invocation leaves behind,
    and the calls it made. *)
Definition handler (w : World) (event : Event) (c : Cache)
  : Response * Cache * list Call :=
  match handlerTry w event {| cache := c; calls := [] |} with
  | (inr response, s) => (response, cache s, calls s)
  | (inl error, s) =>
      ({| statusCode := 500; headers := Some AllowAll;
          body := FailureBody "Internal Server Error" error |},
       cache s, calls s)
  end.

End Program.

(* ================================================================= *)
(** ** Definitions used to state the properties *)

(** The quantile estimator in the words of the specification: sort the
    prices ascending, [pos = (n-1)*q], [base = floor(pos)],
    [rest = pos - base]; the result is [sorted[base]] when [base+1] is out of
    range, else [sorted[base] + rest * (sorted[base+1] - sorted[base])].
    Sorting is stated on its own ([ascending], and a permutation of the
    prices); the formula takes the sorted prices. *)
Section QuantileSpec.
Open Scope float_scope.

Definition inRange (k : float) (n : nat) : bool :=
  match arrayIndex k with
  | Some i => (i <? n)%nat
  | None => false
  end.

Definition orderStatistic (sorted : list float) (k : float) : option float :=
  match arrayIndex k with
  | Some i => nth_error sorted i
  | None => None
  end.

(** A number, as opposed to NaN. *)
Definition isNumber (x : float) : bool := PrimFloat.eqb x x.

(** Each element is at most the next one. *)
Fixpoint ascending (l : list float) : bool :=
  match l with
  | [] => true
  | a :: tl =>
      match tl with
      | [] => true
      | b :: _ => PrimFloat.leb a b
      end && ascending tl
  end.

(** The estimator on prices that are already in ascending order. *)
Definition quantileR7 (sorted : list float) (q : float) : option float :=
  let n := List.length sorted in
  let pos := (ofNat n - 1) * q in
  let base := Math_floor pos in
  let rest := pos - base in
  if inRange (base + 1) n then
    Some (toNumber (orderStatistic sorted base)
          + rest * (toNumber (orderStatistic sorted (base + 1))
                    - toNumber (orderStatistic sorted base)))
  else orderStatistic sorted base.

End QuantileSpec.

(** A float of the specification that is not zero and has the sign [s]. *)
Definition signedNonzero (s : bool) (f : spec_float) : Prop :=
  f = S754_infinity s \/ exists m e, f = S754_finite s m e.

(** The fields a listing of the primary extraction never carries. *)
Definition onlyTitleAndPrice (it : Item.t) : Prop :=
  Item.currency it = None /\ Item.soldDate it = None
  /\ Item.condition it = None /\ Item.imageUrl it = None
  /\ Item.itemUrl it = None /\ Item.shipping it = None.

(** A request passes validation: [q] is present and not blank. *)
Definition validQuery (q : string) : bool :=
  truthy q && negb (String.eqb (trim q) "").

(** The invocation gets as far as extracting listings from the primary
    provider's markup [html] for the query [qs]. *)
Definition primaryExtraction (w : World) (event : Event) (c : Cache)
           (qs : string) (html : Document) : Prop :=
  q event = Some qs
  /\ validQuery qs = true
  /\ lookup (durationFromLastFetch (now_check w) c) qs c = None
  /\ String.eqb (httpMethod event) "OPTIONS" = false
  /\ scrapingbee w = inr html.

(** What every stored entry satisfies. *)
Definition cacheInvariant (c : Cache) : Prop :=
  match data c with
  | Some entry =>
      timestamp c <> 0%Z /\ p_cached entry = true /\ validQuery (query c) = true
  | None => True
  end.

(** The caches a warm process can hold: the initial one, and the one any
    invocation leaves behind.  The clock never reads zero. *)
Inductive Reachable (parseCurrency : string -> option Parsed.t) : Cache -> Prop :=
| reach_initial : Reachable parseCurrency initialCache
| reach_invocation : forall w event c,
    Reachable parseCurrency c ->
    now_store w <> 0%Z ->
    Reachable parseCurrency (snd (fst (handler parseCurrency w event c))).

Definition response500 (error : JsError) : Response :=
  {| statusCode := 500; headers := Some AllowAll;
     body := FailureBody "Internal Server Error" error |}.

(** The [source] member of a response body, when the body has one. *)
Definition sourceOf (r : Response) : option string :=
  match body r with
  | PayloadBody payload => Some (p_source payload)
  | _ => None
  end.

(** Every code unit of the string is one that [trim] removes. *)
Fixpoint allWhiteSpace (s : string) : bool :=
  match s with
  | EmptyString => true
  | String c s' => isWhiteSpace c && allWhiteSpace s'
  end.


(** The copy of a payload that the handler stores: the payload it sends,
    with [cached: true]. *)
Definition storedCopy (p : Payload) : Payload :=
  mkPayload (p_query p) (p_stats p) (p_items p) (p_source p) true.

Definition response400 : Response :=
  {| statusCode := 400; headers := None;
     body := ErrorBody "Missing query parameter q" |}.

Definition response200 (payload : Payload) : Response :=
  {| statusCode := 200; headers := Some AllowAll; body := PayloadBody payload |}.

Definition responsePreflight : Response :=
  {| statusCode := 200; headers := Some AllowAll;
     body := TextBody "Preflight check successful" |}.

(** The request for the primary provider's page. *)
Definition primaryCall (qs : string) : Call :=
  ScrapingBeeGet (scrapURL (spacesToPlus qs)).

(** What a stored entry looks like, field by field. *)
Definition entryInvariant (c : Cache) : Prop :=
  match data c with
  | None => c = initialCache
  | Some p =>
      p_cached p = true
      /\ p_query p = query c
      /\ validQuery (query c) = true
      /\ timestamp c <> 0%Z
      /\ p_stats p = calculateSalesMetrics (p_items p)
      /\ ((p_source p = "scrapingbee"%string
           /\ (3 <= List.length (p_items p))%nat
           /\ Forall onlyTitleAndPrice (p_items p))
          \/ (p_source p = "serpapi"%string
              /\ Forall (fun x => retained x = true) (p_items p)))
  end.

(** All eight members of a fallback listing are set; the defaulted texts
    are not empty and the price is a number. *)
Definition completeListing (x : Item.t) : Prop :=
  (exists v, Item.price x = Some v /\ PrimFloat.eqb v v = true)
  /\ (exists t, Item.currency x = Some t /\ t <> ""%string)
  /\ (exists t, Item.condition x = Some t /\ t <> ""%string)
  /\ (exists t, Item.soldDate x = Some t)
  /\ (exists t, Item.imageUrl x = Some t)
  /\ (exists t, Item.itemUrl x = Some t)
  /\ (exists t, Item.shipping x = Some t).

(* ================================================================= *)
(** ** Sample inputs *)

Section Samples.
Open Scope string_scope.

(** A stand-in for [parsecurrency] that knows one price text. *)
Definition sampleParseCurrency (s : string) : option Parsed.t :=
  if String.eqb s "$10.00" then
    Some {| Parsed.value := 10%float; Parsed.currency := "USD";
            Parsed.symbol := "$" |}
  else None.

Definition cardNoPrice : Card.t :=
  {| Card.title := "Widget"; Card.price := "";
     Card.condition := "Brand New"; Card.shippingInfo := [] |}.

Definition cardSponsored : Card.t :=
  {| Card.title := "Shop on eBay"; Card.price := "$10.00";
     Card.condition := "Brand New"; Card.shippingInfo := [] |}.

Definition cardPriced : Card.t :=
  {| Card.title := "Gadget"; Card.price := "$10.00";
     Card.condition := "Pre-Owned"; Card.shippingInfo := [] |}.

(** A provider result with a link and a price but no thumbnail. *)
Definition organicNoThumbnail : Organic.t :=
  {| Organic.title := Some "Widget";
     Organic.price := Some {| Organic.raw := Some "$10.00" |};
     Organic.thumbnail := None;
     Organic.link := Some "https://www.ebay.com/itm/1";
     Organic.sold_at := None;
     Organic.shipping := ShippingString "Free delivery";
     Organic.condition := None |}.

(** A provider result without a [price] member. *)
Definition organicNoPrice : Organic.t :=
  {| Organic.title := Some "Widget";
     Organic.price := None;
     Organic.thumbnail := Some "https://i.ebayimg.com/1.jpg";
     Organic.link := Some "https://www.ebay.com/itm/2";
     Organic.sold_at := None;
     Organic.shipping := ShippingString "Free delivery";
     Organic.condition := Some "Pre-Owned" |}.

Definition sampleWorld (html : Document) (serp : JsError + SerpResponse) : World :=
  {| now_check := 1000; now_store := 2000;
     now_iso := "2025-01-01T00:00:00.000Z";
     SERP_KEY := Some "key";
     scrapingbee := inr html;
     serpapi := serp |}.

Definition serpOk (results : list Organic.t) : JsError + SerpResponse :=
  inr {| ok := true; status := 200; json := inr (Some results) |}.

Definition serpUnavailable : JsError + SerpResponse :=
  inr {| ok := false; status := 503; json := inr None |}.

Definition sampleEvent : Event :=
  {| q := Some "red widget"; httpMethod := "GET" |}.


(** A provider result without a link. *)
Definition organicNoLink : Organic.t :=
  {| Organic.title := Some "Gadget";
     Organic.price := Some {| Organic.raw := Some "$10.00" |};
     Organic.thumbnail := Some "https://i.ebayimg.com/3.jpg";
     Organic.link := None;
     Organic.sold_at := None;
     Organic.shipping := ShippingString "Free delivery";
     Organic.condition := None |}.

(** The cache after a first request for [red widget] that found three
    priced cards; it was written at time 2000. *)
Definition sampleStored : Cache :=
  snd (fst (handler sampleParseCurrency
              (sampleWorld [cardPriced; cardPriced; cardPriced] serpUnavailable)
              sampleEvent initialCache)).

(** A second request, one millisecond short of sixty minutes later. *)
Definition laterWorld : World :=
  {| now_check := 2000 + 60 * 60 * 1000 - 1; now_store := 3700000;
     now_iso := "2025-01-01T01:00:00.000Z";
     SERP_KEY := Some "key";
     scrapingbee := inl (Error "not reached");
     serpapi := inl (Error "not reached") |}.

Definition blankEvent : Event :=
  {| q := Some "  "; httpMethod := "GET" |}.

Definition preflightEvent : Event :=
  {| q := Some "red widget"; httpMethod := "OPTIONS" |}.

(** A world in which the primary provider cannot be reached. *)
Definition primaryDownWorld : World :=
  {| now_check := 1000; now_store := 2000;
     now_iso := "2025-01-01T00:00:00.000Z";
     SERP_KEY := Some "key";
     scrapingbee := inl (Error "Request failed with status code 500");
     serpapi := serpOk [organicNoThumbnail] |}.

(** A world without a configured fallback key. *)
Definition noKeyWorld (html : Document) : World :=
  {| now_check := 1000; now_store := 2000;
     now_iso := "2025-01-01T00:00:00.000Z";
     SERP_KEY := None;
     scrapingbee := inr html;
     serpapi := serpOk [organicNoThumbnail] |}.

(** A world one hour or more after [sampleStored] was written. *)
Definition expiredWorld : World :=
  {| now_check := 2000 + 60 * 60 * 1000; now_store := 3700000;
     now_iso := "2025-01-01T01:00:00.000Z";
     SERP_KEY := Some "key";
     scrapingbee := inr [cardPriced; cardPriced; cardPriced];
     serpapi := serpUnavailable |}.

(** A provider result without a [shipping] member. *)
Definition organicNoShipping : Organic.t :=
  {| Organic.title := Some "Widget";
     Organic.price := Some {| Organic.raw := Some "$10.00" |};
     Organic.thumbnail := Some "https://i.ebayimg.com/4.jpg";
     Organic.link := Some "https://www.ebay.com/itm/4";
     Organic.sold_at := None;
     Organic.shipping := ShippingAbsent;
     Organic.condition := None |}.

(** A provider result whose price is a range: no [raw] text. *)
Definition organicPriceRange : Organic.t :=
  {| Organic.title := Some "Widget";
     Organic.price := Some {| Organic.raw := None |};
     Organic.thumbnail := Some "https://i.ebayimg.com/5.jpg";
     Organic.link := Some "https://www.ebay.com/itm/5";
     Organic.sold_at := None;
     Organic.shipping := ShippingObject (Some "+$4.50 delivery") (Some 4.5%float);
     Organic.condition := None |}.

(** A listing that has nothing but a title and the price [x]. *)
Definition listingAt (x : float) : Item.t :=
  {| Item.title := "Widget"; Item.price := Some x;
     Item.currency := None; Item.soldDate := None; Item.condition := None;
     Item.imageUrl := None; Item.itemUrl := None; Item.shipping := None |}.

Definition fetchFailed : JsError + SerpResponse :=
  inl (TypeError "fetch failed").

Definition emptyStore : Store := {| cache := initialCache; calls := [] |}.

End Samples.

(* ================================================================= *)
(** ** The order of binary64 numbers and the comparator *)

Section FloatOrder.
Open Scope Z_scope.

Lemma digits2_pos_bounds (p : positive) :
  2 ^ (Z.pos (digits2_pos p) - 1) <= Z.pos p < 2 ^ Z.pos (digits2_pos p).
Proof.
  induction p as [p IH | p IH |]; simpl digits2_pos.
  - rewrite Pos2Z.inj_succ.
    replace (Z.succ (Z.pos (digits2_pos p)) - 1) with (Z.succ (Z.pos (digits2_pos p) - 1)) by lia.
    rewrite !Z.pow_succ_r by lia. lia.
  - rewrite Pos2Z.inj_succ.
    replace (Z.succ (Z.pos (digits2_pos p)) - 1) with (Z.succ (Z.pos (digits2_pos p) - 1)) by lia.
    rewrite !Z.pow_succ_r by lia. lia.
  - simpl. lia.
Qed.

Lemma iter_xO_value (m d : positive) :
  Z.pos (Pos.iter xO m d) = Z.pos m * 2 ^ Z.pos d.
Proof.
  induction d as [|d IH] using Pos.peano_ind.
  - simpl. lia.
  - rewrite Pos.iter_succ, Pos2Z.inj_succ, Z.pow_succ_r by lia.
    rewrite Pos2Z.inj_xO, IH. lia.
Qed.

Lemma shr_1_value (mrs : shr_record) :
  0 <= shr_m mrs -> shr_m (shr_1 mrs) = shr_m mrs / 2.
Proof.
  destruct mrs as [m r s]. cbn [shr_m].
  destruct m as [|[p|p|]|p]; cbn [shr_1 shr_m]; intros H; try lia.
  - reflexivity.
  - apply Z.div_unique with (r := 1); lia.
  - apply Z.div_unique with (r := 0); lia.
  - reflexivity.
Qed.

Lemma iter_shr_1_value (p : positive) (mrs : shr_record) :
  0 <= shr_m mrs ->
  shr_m (iter_pos shr_1 p mrs) = shr_m mrs / 2 ^ Z.pos p.
Proof.
  revert mrs. induction p as [p IH | p IH |]; intros mrs H; simpl iter_pos.
  - assert (H1 : 0 <= shr_m (shr_1 mrs)).
    { rewrite shr_1_value by exact H. apply Z.div_pos; lia. }
    assert (H2 : 0 <= shr_m (iter_pos shr_1 p (shr_1 mrs))).
    { rewrite IH by exact H1. apply Z.div_pos; [exact H1 | lia]. }
    rewrite IH by exact H2. rewrite IH by exact H1. rewrite shr_1_value by exact H.
    rewrite !Z.div_div by lia.
    f_equal. rewrite Pos2Z.inj_xI, Z.pow_add_r, Z.pow_mul_r by lia.
    change (2 ^ 2) with 4. change (2 ^ 1) with 2.
    replace (4 ^ Z.pos p) with (2 ^ Z.pos p * 2 ^ Z.pos p).
    + lia.
    + rewrite <- Z.pow_add_r by lia. replace (Z.pos p + Z.pos p) with (2 * Z.pos p) by lia.
      rewrite Z.pow_mul_r by lia. reflexivity.
  - assert (H2 : 0 <= shr_m (iter_pos shr_1 p mrs)).
    { rewrite IH by exact H. apply Z.div_pos; [exact H | lia]. }
    rewrite IH by exact H2. rewrite IH by exact H.
    rewrite !Z.div_div by lia.
    f_equal. rewrite Pos2Z.inj_xO, <- Z.pow_add_r by lia. f_equal. lia.
  - rewrite shr_1_value by exact H. reflexivity.
Qed.

Lemma shr_fexp_positive (p : positive) (e : Z) (l : location) :
  SpecFloat.emin prec emax <= e ->
  0 < shr_m (fst (shr_fexp prec emax (Z.pos p) e l))
  /\ SpecFloat.emin prec emax <= snd (shr_fexp prec emax (Z.pos p) e l).
Proof.
  intros He. unfold shr_fexp, shr.
  assert (Hm : shr_m (shr_record_of_loc (Z.pos p) l) = Z.pos p)
    by (destruct l as [|[]]; reflexivity).
  destruct (fexp prec emax (Zdigits2 (Z.pos p) + e) - e) as [|k|k] eqn:Hn;
    cbn [fst snd].
  - rewrite Hm. lia.
  - split; [|lia].
    rewrite iter_shr_1_value by lia. rewrite Hm.
    assert (Hk : Z.pos k <= Z.pos (digits2_pos p) - 1).
    { unfold fexp, SpecFloat.emin, prec, emax in *. cbn [Zdigits2] in Hn. lia. }
    pose proof (digits2_pos_bounds p) as [Hlow _].
    apply Z.div_str_pos. split; [apply Z.pow_pos_nonneg; lia |].
    eapply Z.le_trans; [apply Z.pow_le_mono_r; [lia | exact Hk] | exact Hlow].
  - rewrite Hm. lia.
Qed.

Lemma round_nearest_even_ge (m : Z) (l : location) :
  m <= round_nearest_even m l.
Proof.
  destruct l as [|[]]; simpl; try lia.
  destruct (Z.even m); lia.
Qed.

Lemma binary_round_aux_sign (s : bool) (p : positive) (e : Z) (l : location) :
  SpecFloat.emin prec emax <= e ->
  signedNonzero s (binary_round_aux prec emax s (Z.pos p) e l).
Proof.
  intros He. unfold binary_round_aux.
  pose proof (@shr_fexp_positive p e l He) as [Hpos He'].
  destruct (shr_fexp prec emax (Z.pos p) e l) as [mrs' e'].
  cbn [fst snd] in *.
  pose proof (round_nearest_even_ge (shr_m mrs') (loc_of_shr_record mrs')) as Hround.
  destruct (round_nearest_even (shr_m mrs') (loc_of_shr_record mrs'))
    as [|p2|p2]; try lia.
  pose proof (@shr_fexp_positive p2 e' loc_Exact He') as [Hpos2 _].
  destruct (shr_fexp prec emax (Z.pos p2) e' loc_Exact) as [mrs'' e''].
  cbn [fst snd] in *.
  destruct (shr_m mrs'') as [|m|m]; try lia.
  destruct (e'' <=? emax - prec).
  - right. now exists m, e''.
  - now left.
Qed.

Lemma binary_round_sign (s : bool) (m : positive) (e : Z) :
  SpecFloat.emin prec emax <= e ->
  signedNonzero s (binary_round prec emax s m e).
Proof.
  intros He. unfold binary_round, shl_align.
  destruct (fexp prec emax (Z.pos (digits2_pos m) + e) - e) as [|k|k] eqn:Hn.
  - now apply binary_round_aux_sign.
  - now apply binary_round_aux_sign.
  - apply binary_round_aux_sign.
    unfold fexp, SpecFloat.emin, prec, emax in *. lia.
Qed.

Lemma shl_align_value (m : positive) (e ez : Z) :
  ez <= e -> Z.pos (fst (shl_align m e ez)) = Z.pos m * 2 ^ (e - ez).
Proof.
  intros H. unfold shl_align.
  destruct (ez - e) as [|d|d] eqn:Hd; cbn [fst].
  - replace (e - ez) with 0 by lia. rewrite Z.pow_0_r. lia.
  - lia.
  - rewrite iter_xO_value. replace (e - ez) with (Z.pos d) by lia. reflexivity.
Qed.

Lemma canonical_emin (m : positive) (e : Z) :
  canonical_mantissa prec emax m e = true -> SpecFloat.emin prec emax <= e.
Proof.
  unfold canonical_mantissa. rewrite Z.eqb_eq.
  unfold fexp, SpecFloat.emin, prec, emax. lia.
Qed.

Lemma canonical_lt (mx my : positive) (ex ey : Z) :
  canonical_mantissa prec emax mx ex = true ->
  canonical_mantissa prec emax my ey = true ->
  ex < ey ->
  Z.pos mx < Z.pos my * 2 ^ (ey - ex).
Proof.
  unfold canonical_mantissa. rewrite !Z.eqb_eq.
  unfold fexp, SpecFloat.emin, prec, emax. intros Hx Hy Hlt.
  pose proof (digits2_pos_bounds mx) as [_ Hmx].
  pose proof (digits2_pos_bounds my) as [Hmy _].
  assert (Hd : Z.pos (digits2_pos mx) <= (Z.pos (digits2_pos my) - 1) + (ey - ex))
    by lia.
  apply Z.lt_le_trans with (2 ^ Z.pos (digits2_pos mx)); [exact Hmx |].
  apply Z.le_trans with (2 ^ ((Z.pos (digits2_pos my) - 1) + (ey - ex))).
  - apply Z.pow_le_mono_r; lia.
  - rewrite Z.pow_add_r by lia.
    apply Z.mul_le_mono_nonneg_r; [apply Z.pow_nonneg; lia | exact Hmy].
Qed.

Lemma SFcompare_aligned (sx sy : bool) (mx my : positive) (ex ey : Z) :
  canonical_mantissa prec emax mx ex = true ->
  canonical_mantissa prec emax my ey = true ->
  SFcompare (S754_finite sx mx ex) (S754_finite sy my ey)
  = Some (cond_Zopp sx (Z.pos (fst (shl_align mx ex (Z.min ex ey))))
          ?= cond_Zopp sy (Z.pos (fst (shl_align my ey (Z.min ex ey))))).
Proof.
  intros Hx Hy.
  rewrite !shl_align_value by lia.
  assert (Hpx : 0 < Z.pos mx * 2 ^ (ex - Z.min ex ey))
    by (apply Z.mul_pos_pos; [lia | apply Z.pow_pos_nonneg; lia]).
  assert (Hpy : 0 < Z.pos my * 2 ^ (ey - Z.min ex ey))
    by (apply Z.mul_pos_pos; [lia | apply Z.pow_pos_nonneg; lia]).
  unfold SFcompare. f_equal. symmetry.
  destruct sx, sy; cbn [cond_Zopp].
  - destruct (Z.compare_spec ex ey) as [Heq | Hlt | Hgt].
    + subst ey. rewrite Z.min_id, Z.sub_diag, Z.pow_0_r, !Z.mul_1_r.
      rewrite Z.compare_opp, Pos.compare_cont_antisym. reflexivity.
    + apply Z.compare_gt_iff.
      pose proof (@canonical_lt mx my ex ey Hx Hy Hlt).
      replace (Z.min ex ey) with ex in * by lia.
      rewrite Z.sub_diag, Z.pow_0_r. lia.
    + apply Z.compare_lt_iff.
      pose proof (@canonical_lt my mx ey ex Hy Hx ltac:(lia)).
      replace (Z.min ex ey) with ey in * by lia.
      rewrite Z.sub_diag, Z.pow_0_r. lia.
  - apply Z.compare_lt_iff. lia.
  - apply Z.compare_gt_iff. lia.
  - destruct (Z.compare_spec ex ey) as [Heq | Hlt | Hgt].
    + subst ey. rewrite Z.min_id, Z.sub_diag, Z.pow_0_r, !Z.mul_1_r.
      reflexivity.
    + apply Z.compare_lt_iff.
      pose proof (@canonical_lt mx my ex ey Hx Hy Hlt).
      replace (Z.min ex ey) with ex in * by lia.
      rewrite Z.sub_diag, Z.pow_0_r. lia.
    + apply Z.compare_gt_iff.
      pose proof (@canonical_lt my mx ey ex Hy Hx ltac:(lia)).
      replace (Z.min ex ey) with ey in * by lia.
      rewrite Z.sub_diag, Z.pow_0_r. lia.
Qed.

Lemma valid_canonical (s : bool) (m : positive) (e : Z) :
  SpecFloat.valid_binary prec emax (S754_finite s m e) = true ->
  canonical_mantissa prec emax m e = true.
Proof.
  cbn [valid_binary]. unfold bounded. rewrite andb_true_iff. tauto.
Qed.

(** The sign of a difference is the comparison of its operands. *)
Lemma SFsub_sign (X Y : spec_float) :
  SpecFloat.valid_binary prec emax X = true -> SpecFloat.valid_binary prec emax Y = true ->
  match SFcompare X Y with
  | Some Gt => signedNonzero false (SFsub prec emax X Y)
  | Some Lt => signedNonzero true (SFsub prec emax X Y)
  | Some Eq => SFsub prec emax X Y = S754_nan
               \/ exists s, SFsub prec emax X Y = S754_zero s
  | None => SFsub prec emax X Y = S754_nan
  end.
Proof.
  intros HX HY.
  destruct X as [sx | sx | | sx mx ex], Y as [sy | sy | | sy my ey];
    try (cbn; reflexivity);
    try (destruct sx; try destruct sy; cbn;
         unfold signedNonzero; eauto; fail).
  pose proof (@valid_canonical sx mx ex HX) as Hx.
    pose proof (@valid_canonical sy my ey HY) as Hy.
    rewrite (@SFcompare_aligned sx sy mx my ex ey Hx Hy).
    unfold SFsub. cbv zeta.
    pose proof (@canonical_emin mx ex Hx). pose proof (@canonical_emin my ey Hy).
    set (zx := cond_Zopp sx (Z.pos (fst (shl_align mx ex (Z.min ex ey))))).
    set (zy := cond_Zopp sy (Z.pos (fst (shl_align my ey (Z.min ex ey))))).
    destruct (Z.compare_spec zx zy) as [Heq | Hlt | Hgt];
      destruct (zx - zy) as [|d|d] eqn:Hd; try lia; cbn [binary_normalize].
    + right. eauto.
    + apply binary_round_sign. lia.
    + apply binary_round_sign. lia.
Qed.

Lemma SFcompare_antisym (X Y : spec_float) :
  SFcompare Y X = option_map CompOpp (SFcompare X Y).
Proof.
  destruct X as [sx | sx | | sx mx ex], Y as [sy | sy | | sy my ey];
    try (try destruct sx; try destruct sy; reflexivity).
  destruct sx, sy; cbn; try reflexivity.
  - rewrite (Z.compare_antisym ex ey).
    destruct (ex ?= ey); cbn; try reflexivity.
    rewrite CompOpp_involutive, Pos.compare_cont_antisym. reflexivity.
  - rewrite (Z.compare_antisym ex ey).
    destruct (ex ?= ey); cbn; try reflexivity.
    now rewrite Pos.compare_cont_antisym.
Qed.

Lemma SFltb_zero_sub (X Y : spec_float) :
  SpecFloat.valid_binary prec emax X = true -> SpecFloat.valid_binary prec emax Y = true ->
  SFltb (S754_zero false) (SFsub prec emax X Y) = SFltb Y X.
Proof.
  intros HX HY.
  pose proof (@SFsub_sign X Y HX HY) as Hsign.
  unfold SFltb at 2. rewrite SFcompare_antisym.
  destruct (SFcompare X Y) as [[| |]|]; cbn [option_map CompOpp].
  - destruct Hsign as [-> | [s ->]]; reflexivity.
  - destruct Hsign as [-> | (m & e & ->)]; reflexivity.
  - destruct Hsign as [-> | (m & e & ->)]; reflexivity.
  - rewrite Hsign. reflexivity.
Qed.

(** The comparator [(a, b) => a - b] is above zero exactly when [b < a]. *)
Lemma difference_positive_iff_less (a b : float) :
  PrimFloat.ltb 0 (a - b) = PrimFloat.ltb b a.
Proof.
  rewrite !FloatAxioms.ltb_spec, FloatAxioms.sub_spec.
  change (Prim2SF 0) with (S754_zero false).
  apply SFltb_zero_sub; apply Prim2SF_valid.
Qed.

Lemma isNumber_not_nan (a : float) :
  isNumber a = true -> Prim2SF a <> S754_nan.
Proof.
  unfold isNumber. rewrite FloatAxioms.eqb_spec. intros H Hnan.
  rewrite Hnan in H. discriminate.
Qed.

Lemma SFcompare_numbers (X Y : spec_float) :
  X <> S754_nan -> Y <> S754_nan -> exists c, SFcompare X Y = Some c.
Proof.
  intros HX HY.
  destruct X as [sx | sx | | sx mx ex], Y as [sy | sy | | sy my ey];
    try (now elim HX); try (now elim HY); cbn; eauto.
Qed.

(** Of two numbers, one that is not below the other is at most it. *)
Lemma leb_of_not_ltb (a b : float) :
  isNumber a = true -> isNumber b = true ->
  PrimFloat.ltb b a = false -> PrimFloat.leb a b = true.
Proof.
  intros Ha Hb. rewrite FloatAxioms.ltb_spec, FloatAxioms.leb_spec.
  unfold SFltb, SFleb. rewrite (SFcompare_antisym (Prim2SF a) (Prim2SF b)).
  destruct (@SFcompare_numbers (Prim2SF a) (Prim2SF b)
              (@isNumber_not_nan a Ha) (@isNumber_not_nan b Hb))
    as [c ->].
  destruct c; cbn; congruence.
Qed.

Lemma leb_of_ltb (a b : float) :
  PrimFloat.ltb a b = true -> PrimFloat.leb a b = true.
Proof.
  rewrite FloatAxioms.ltb_spec, FloatAxioms.leb_spec. unfold SFltb, SFleb.
  destruct (SFcompare (Prim2SF a) (Prim2SF b)) as [[| |]|]; congruence.
Qed.

End FloatOrder.

(* ================================================================= *)
(** ** Properties of the stats calculator *)

Section StatsProperties.
Open Scope float_scope.

Lemma defined_map_Some (l : list float) : defined (map Some l) = l.
Proof. induction l as [|x l IH]; simpl; [reflexivity | now rewrite IH]. Qed.

Lemma undefinedCount_map_Some (l : list float) :
  undefinedCount (map Some l) = O.
Proof. induction l as [|x l IH]; simpl; [reflexivity | exact IH]. Qed.

(** The sort rearranges its input and loses nothing. *)
Lemma insertSorted_perm (x : float) (l : list float) :
  Permutation (insertSorted x l) (x :: l).
Proof.
  induction l as [|y l IH]; simpl.
  - apply Permutation_refl.
  - destruct (PrimFloat.ltb 0 (compareFn x y)).
    + eapply perm_trans; [apply perm_skip, IH | apply perm_swap].
    + apply Permutation_refl.
Qed.

Lemma sortNumbers_perm (l : list float) : Permutation (sortNumbers l) l.
Proof.
  induction l as [|x l IH]; simpl.
  - apply perm_nil.
  - eapply perm_trans; [apply insertSorted_perm | apply perm_skip, IH].
Qed.

Lemma sortArray_length (arr : list (option float)) :
  List.length (sortArray arr) = List.length arr.
Proof.
  unfold sortArray.
  rewrite length_app, length_map, repeat_length,
    (Permutation_length (sortNumbers_perm (defined arr))).
  induction arr as [|[x|] arr IH]; simpl; lia.
Qed.

Lemma sortArray_numbers (l : list float) :
  sortArray (map Some l) = map Some (sortNumbers l).
Proof.
  unfold sortArray.
  rewrite defined_map_Some, undefinedCount_map_Some.
  simpl. apply app_nil_r.
Qed.

Lemma at_numbers (l : list float) (k : float) :
  at_ (map Some l) k = orderStatistic l k.
Proof.
  unfold at_, orderStatistic.
  destruct (arrayIndex k) as [i|]; [|reflexivity].
  rewrite nth_error_map.
  now destruct (nth_error l i).
Qed.

Lemma orderStatistic_inRange (l : list float) (k : float) :
  inRange k (List.length l) = true <-> orderStatistic l k <> None.
Proof.
  unfold inRange, orderStatistic.
  destruct (arrayIndex k) as [i|].
  - rewrite Nat.ltb_lt. symmetry. apply nth_error_Some.
  - split; [discriminate | intros H; now elim H].
Qed.

(** On an array of numbers the function applies the formula of the
    specification to what its sort returns. *)
Lemma quantile_is_R7 (prices : list float) (q : float) :
  quantile (map Some prices) q = quantileR7 (sortNumbers prices) q.
Proof.
  unfold quantile, quantileR7.
  rewrite sortArray_numbers, length_map, !at_numbers.
  set (sorted := sortNumbers prices).
  set (base := Math_floor ((ofNat (List.length sorted) - 1) * q)).
  pose proof (orderStatistic_inRange sorted (base + 1)) as Hrange.
  destruct (orderStatistic sorted (base + 1)) as [next|] eqn:Hnext.
  - destruct (inRange (base + 1) (List.length sorted)).
    + reflexivity.
    + destruct Hrange as [_ Hrange].
      assert (false = true) by (apply Hrange; discriminate).
      discriminate.
  - destruct (inRange (base + 1) (List.length sorted)).
    + destruct Hrange as [Hrange _]. now elim Hrange.
    + reflexivity.
Qed.

(** The sort puts numbers in ascending order. *)
Lemma insertSorted_numbers (x : float) (l : list float) :
  isNumber x = true -> Forall (fun y => isNumber y = true) l ->
  Forall (fun y => isNumber y = true) (insertSorted x l).
Proof.
  intros Hx. induction 1 as [|y l Hy Hl IH]; simpl.
  - repeat constructor. exact Hx.
  - destruct (PrimFloat.ltb 0 (compareFn x y)); repeat constructor; auto.
Qed.

Lemma sortNumbers_numbers (l : list float) :
  Forall (fun y => isNumber y = true) l ->
  Forall (fun y => isNumber y = true) (sortNumbers l).
Proof.
  induction 1 as [|x l Hx Hl IH]; simpl.
  - constructor.
  - now apply insertSorted_numbers.
Qed.

Lemma insertSorted_ascending (x : float) (l : list float) :
  isNumber x = true -> Forall (fun y => isNumber y = true) l ->
  ascending l = true -> ascending (insertSorted x l) = true.
Proof.
  intros Hx Hl. induction Hl as [|y l Hy Hl IH]; intros Hasc.
  - reflexivity.
  - cbn [insertSorted]. unfold compareFn.
    rewrite difference_positive_iff_less.
    destruct (PrimFloat.ltb y x) eqn:Hlt.
    + cbn [ascending] in Hasc. apply andb_true_iff in Hasc.
      destruct Hasc as [Hhead Htail].
      cbn [ascending]. rewrite (IH Htail), andb_true_r.
      destruct l as [|z l'].
      * cbn [insertSorted]. now apply leb_of_ltb.
      * cbn [insertSorted]. unfold compareFn.
        destruct (PrimFloat.ltb 0 (x - z)); [exact Hhead | now apply leb_of_ltb].
    + change (ascending (x :: y :: l))
        with (PrimFloat.leb x y && ascending (y :: l)).
      rewrite Hasc, andb_true_r. now apply leb_of_not_ltb.
Qed.

Lemma sortNumbers_ascending (l : list float) :
  Forall (fun y => isNumber y = true) l -> ascending (sortNumbers l) = true.
Proof.
  induction 1 as [|x l Hx Hl IH]; simpl.
  - reflexivity.
  - apply insertSorted_ascending; [exact Hx | now apply sortNumbers_numbers | exact IH].
Qed.

(** C3. [quantile] is the linear-interpolation (R-7) estimator: for every
    array of numbers (no NaN) and every [q] it returns what the formula of
    the specification gives on the prices put in ascending order.  On the
    prices 1, 2, 3, 4, in this or in another order, it gives p25 = 1.75,
    median = 2.5 and p75 = 3.25; on the single price 5 all three quantiles
    are 5. *)
Theorem C3_quantile_linear_interpolation :
  (forall prices q,
      Forall (fun x => isNumber x = true) prices ->
      exists sorted,
        Permutation sorted prices
        /\ ascending sorted = true
        /\ quantile (map Some prices) q = quantileR7 sorted q)
  /\ quantile [Some 1; Some 2; Some 3; Some 4] 0.25 = Some 1.75
  /\ quantile [Some 1; Some 2; Some 3; Some 4] 0.5 = Some 2.5
  /\ quantile [Some 1; Some 2; Some 3; Some 4] 0.75 = Some 3.25
  /\ quantile [Some 5] 0.25 = Some 5
  /\ quantile [Some 5] 0.5 = Some 5
  /\ quantile [Some 5] 0.75 = Some 5
  /\ quantile [Some 4; Some 1; Some 3; Some 2] 0.25 = Some 1.75
  /\ quantile [Some 4; Some 1; Some 3; Some 2] 0.5 = Some 2.5
  /\ quantile [Some 4; Some 1; Some 3; Some 2] 0.75 = Some 3.25
  /\ quantile [Some 4; Some 3; Some 2; Some 1] 0.25 = Some 1.75
  /\ quantile [Some 4; Some 3; Some 2; Some 1] 0.5 = Some 2.5
  /\ quantile [Some 4; Some 3; Some 2; Some 1] 0.75 = Some 3.25.
Proof.
  split.
  - intros prices q Hnumbers.
    exists (sortNumbers prices).
    split; [apply sortNumbers_perm |].
    split; [now apply sortNumbers_ascending | apply quantile_is_R7].
  - repeat split; vm_compute; reflexivity.
Qed.

(** C4. For the empty sequence of listings the calculator returns a count of
    zero and [undefined] for each of p25, median and p75. *)
Theorem C4_empty_stats_undefined :
  calculateSalesMetrics [] =
    {| count := 0; p25 := None; median := None; p75 := None |}.
Proof. vm_compute. reflexivity. Qed.

End StatsProperties.

(** The prices 4, 1, 3, 2: the median is the formula on their ascending
    order. *)
Lemma C3_witness :
  exists sorted,
    Permutation sorted [4; 1; 3; 2]%float
    /\ ascending sorted = true
    /\ quantile [Some 4; Some 1; Some 3; Some 2]%float 0.5%float
       = quantileR7 sorted 0.5%float.
Proof.
  apply (proj1 C3_quantile_linear_interpolation [4; 1; 3; 2]%float 0.5%float).
  repeat constructor.
Defined.

(* ================================================================= *)
(** ** Properties of the HTML extractor *)

Section ExtractorProperties.
Open Scope string_scope.
Variable parseCurrency : string -> option Parsed.t.

Lemma truthy_nonempty (s : string) : truthy s = true <-> s <> "".
Proof.
  unfold truthy. rewrite negb_true_iff. apply String.eqb_neq.
Qed.

Lemma emitted_iff (card : Card.t) :
  emitted card = true
  <-> Card.title card <> "Shop on eBay" /\ Card.condition card <> "".
Proof.
  unfold emitted.
  rewrite andb_true_iff, negb_true_iff, String.eqb_neq, truthy_nonempty.
  tauto.
Qed.

Lemma extract_filter_map (html : Document) (query : string) :
  extractSellItemsFromHTML parseCurrency html query
  = map (resultData parseCurrency) (filter emitted html).
Proof.
  induction html as [|element rest IH]; simpl.
  - reflexivity.
  - destruct (emitted element); simpl; now rewrite IH.
Qed.

Lemma extract_length_le (html : Document) (query : string) :
  (List.length (extractSellItemsFromHTML parseCurrency html query)
   <= List.length html)%nat.
Proof.
  rewrite extract_filter_map, length_map. apply filter_length_le.
Qed.

Lemma extract_only_title_price (html : Document) (query : string) :
  Forall onlyTitleAndPrice (extractSellItemsFromHTML parseCurrency html query).
Proof.
  rewrite extract_filter_map.
  apply Forall_map, Forall_forall.
  intros card _. unfold onlyTitleAndPrice, resultData. simpl. tauto.
Qed.

(** C7. The extractor never emits a card whose title is the sponsored
    placeholder [Shop on eBay], whatever its other fields, never emits a
    card whose condition is empty, and emits the remaining cards in the
    order the markup has them. *)
Theorem C7_extractor_rejects_and_keeps_order (html : Document) (query : string) :
  extractSellItemsFromHTML parseCurrency html query
  = map (resultData parseCurrency) (filter emitted html)
  /\ (forall card,
         Card.title card = "Shop on eBay" \/ Card.condition card = "" ->
         emitted card = false)
  /\ Forall (fun it => Item.title it <> "Shop on eBay")
            (extractSellItemsFromHTML parseCurrency html query).
Proof.
  split; [apply extract_filter_map |].
  split.
  - intros card Hcard.
    destruct (emitted card) eqn:E; [|reflexivity].
    apply emitted_iff in E. destruct E as [Ht Hc].
    destruct Hcard; contradiction.
  - rewrite extract_filter_map.
    apply Forall_map, Forall_forall.
    intros card Hin. apply filter_In in Hin.
    destruct Hin as [_ E]. apply emitted_iff in E. simpl. tauto.
Qed.

End ExtractorProperties.

(** The sponsored card is dropped and the two others keep their order. *)
Lemma C7_witness :
  extractSellItemsFromHTML sampleParseCurrency
    [cardPriced; cardSponsored; cardNoPrice] "red widget"
  = map (resultData sampleParseCurrency) [cardPriced; cardNoPrice]
  /\ emitted cardSponsored = false.
Proof.
  pose proof (C7_extractor_rejects_and_keeps_order sampleParseCurrency
                [cardPriced; cardSponsored; cardNoPrice] "red widget")
    as [Hmap [Hreject _]].
  split.
  - exact Hmap.
  - apply Hreject. left. reflexivity.
Defined.

(* ================================================================= *)
(** ** Properties of the fallback client *)

Ltac run_monad :=
  unfold bind, ret, throw, liftE, record, getCache, setData, setTimestamp,
    setQuery, putCache in *;
  cbn [cache calls fst snd] in *.

Section FallbackProperties.
Open Scope string_scope.
Variable parseCurrency : string -> option Parsed.t.

Lemma retained_iff (x : Item.t) :
  retained x = true
  <-> Item.title x <> ""
      /\ (exists u, Item.itemUrl x = Some u /\ u <> "")
      /\ PrimFloat.ltb 0 (toNumber (Item.price x)) = true.
Proof.
  unfold retained.
  rewrite !andb_true_iff, truthy_nonempty.
  destruct (Item.itemUrl x) as [u|].
  - rewrite truthy_nonempty. split.
    + intros [[Ht Hu] Hp]. repeat split; trivial. now exists u.
    + intros [Ht [[u' [Hu' Hne]] Hp]]. inversion Hu'; subst. tauto.
  - split.
    + intros [[_ Hf] _]. discriminate.
    + intros [_ [[u' [Hu' _]] _]]. discriminate.
Qed.

Lemma mapE_fails {A B} (f : A -> JsError + B) (l : list A) (a : A) (e : JsError) :
  In a l -> f a = inl e -> exists e', mapE f l = inl e'.
Proof.
  induction l as [|b l IH]; simpl; [tauto |].
  intros [-> | Hin] Hf.
  - rewrite Hf. now exists e.
  - destruct (f b) as [eb | y]; [now exists eb |].
    destruct (IH Hin Hf) as [e' ->]. now exists e'.
Qed.

(** Reading [.raw] of a missing [price] member throws. *)
Lemma toSoldItem_no_price (now : string) (it : Organic.t) :
  Organic.price it = None ->
  toSoldItem parseCurrency now it
  = inl (TypeError "Cannot read properties of undefined (reading 'raw')").
Proof. intros H. unfold toSoldItem. now rewrite H. Qed.

(** The fallback client never touches the cache, and it only adds to the
    calls, starting with its own. *)
Lemma fetchSerp_store (w : World) (q : string) (s : Store) :
  cache (snd (fetchSerp parseCurrency w q s)) = cache s
  /\ exists more,
      calls (snd (fetchSerp parseCurrency w q s))
      = (calls s ++ FetchSerp q :: more)%list.
Proof.
  unfold fetchSerp. run_monad.
  destruct (SERP_KEY w) as [key|]; simpl.
  2:{ split; [reflexivity | now exists []]. }
  destruct (truthy key); simpl.
  2:{ split; [reflexivity | now exists []]. }
  assert (Hcalls : forall tail : list Call,
             ((calls s ++ [FetchSerp q]) ++ tail
              = calls s ++ FetchSerp q :: tail)%list)
    by (intros tail; now rewrite <- app_assoc).
  destruct (serpapi w) as [e | r]; simpl.
  { split; [reflexivity | eexists; apply Hcalls]. }
  destruct (ok r); simpl.
  2:{ split; [reflexivity | eexists; apply Hcalls]. }
  destruct (json r) as [e | j]; simpl.
  { split; [reflexivity | eexists; apply Hcalls]. }
  destruct (mapE _ _) as [e | mapped]; simpl;
    (split; [reflexivity | eexists; apply Hcalls]).
Qed.

(** What the fallback client returns went through the final filter. *)
Lemma fetchSerp_filtered (w : World) (q : string) (s s' : Store)
      (items : list Item.t) :
  fetchSerp parseCurrency w q s = (inr (Some items), s') ->
  Forall (fun x => retained x = true) items.
Proof.
  unfold fetchSerp. run_monad.
  destruct (SERP_KEY w) as [key|]; simpl; [|discriminate].
  destruct (truthy key); simpl; [|discriminate].
  destruct (serpapi w) as [e | r]; simpl; [discriminate |].
  destruct (ok r); simpl; [|discriminate].
  destruct (json r) as [e | j]; simpl; [discriminate |].
  destruct (mapE _ _) as [e | mapped]; simpl; [discriminate |].
  intros H. inversion H; subst.
  apply Forall_forall. intros x Hx. now apply filter_In in Hx.
Qed.


(** A result without a [price] member makes the whole call throw. *)
Lemma fetchSerp_missing_price (w : World) (q key : string) (r : SerpResponse)
      (results : list Organic.t) (it : Organic.t) (s : Store) :
  SERP_KEY w = Some key -> truthy key = true ->
  serpapi w = inr r -> ok r = true -> json r = inr (Some results) ->
  In it results -> Organic.price it = None ->
  exists e, fst (fetchSerp parseCurrency w q s) = inl e.
Proof.
  intros Hkey Htruthy Hserp Hok Hjson Hin Hprice.
  destruct (mapE_fails (toSoldItem parseCurrency (now_iso w)) results it
              Hin (toSoldItem_no_price (now_iso w) it Hprice)) as [e He].
  exists e.
  unfold fetchSerp. run_monad.
  rewrite Hkey, Htruthy, Hserp. simpl. rewrite Hok, Hjson. simpl.
  now rewrite He.
Qed.

(** C6, in the form that holds of the code.  Every listing the fallback client returns has a
    non-empty [itemUrl] (and a non-empty title and a price above zero); a
    provider result without a link is mapped to a listing the final filter
    rejects.  [imageUrl] is not tested: it may be empty. *)
Theorem C6_fallback_requires_itemUrl (w : World) (q : string) (s s' : Store)
        (items : list Item.t) :
  fetchSerp parseCurrency w q s = (inr (Some items), s') ->
  Forall (fun x =>
            Item.title x <> ""
            /\ (exists u, Item.itemUrl x = Some u /\ u <> "")
            /\ PrimFloat.ltb 0 (toNumber (Item.price x)) = true) items
  /\ (forall it x,
         toSoldItem parseCurrency (now_iso w) it = inr x ->
         Organic.link it = None \/ Organic.link it = Some "" ->
         retained x = false /\ ~ In x items).
Proof.
  intros Hfetch.
  pose proof (fetchSerp_filtered _ _ _ Hfetch) as Hall.
  split.
  - eapply Forall_impl; [|exact Hall].
    intros x Hx. now apply retained_iff.
  - intros it x Hmap Hlink.
    assert (Hurl : Item.itemUrl x = Some "").
    { unfold toSoldItem in Hmap.
      destruct (Organic.price it); [|discriminate].
      destruct (getShippingCost _ _); [discriminate |].
      inversion Hmap; subst; simpl.
      destruct Hlink as [-> | ->]; reflexivity. }
    assert (Hrej : retained x = false).
    { unfold retained. rewrite Hurl. simpl. now rewrite andb_false_r. }
    split; [exact Hrej |].
    intros Hin. rewrite Forall_forall in Hall.
    specialize (Hall x Hin). congruence.
Qed.

End FallbackProperties.

(* ================================================================= *)
(** ** Properties of the handler *)

Section HandlerProperties.
Open Scope string_scope.
Variable parseCurrency : string -> option Parsed.t.

Local Abbreviation extract := (extractSellItemsFromHTML parseCurrency).

Lemma validQuery_guard (qs : string) :
  validQuery qs = true ->
  negb (truthy qs) || String.eqb (trim qs) "" = false.
Proof.
  unfold validQuery. rewrite andb_true_iff, negb_true_iff.
  intros [-> ->]. reflexivity.
Qed.

Lemma invalidQuery_guard (qs : string) :
  validQuery qs = false ->
  negb (truthy qs) || String.eqb (trim qs) "" = true.
Proof.
  unfold validQuery. destruct (truthy qs); simpl; [|reflexivity].
  now rewrite negb_false_iff.
Qed.

(** The handler from the point where extraction has happened. *)
Lemma handler_after_extraction (w : World) (event : Event) (c : Cache)
      (qs : string) (html : Document) :
  primaryExtraction w event c qs html ->
  handler parseCurrency w event c =
    let items := extract html qs in
    let s1 := {| cache := c;
                 calls := [ScrapingBeeGet (scrapURL (spacesToPlus qs))] |} in
    if (List.length items <? 3)%nat then
      match fetchSerp parseCurrency w qs s1 with
      | (inl error, s') => (response500 error, cache s', calls s')
      | (inr fetched, s') =>
          let items' := match fetched with Some l => l | None => [] end in
          let stats := calculateSalesMetrics items' in
          ({| statusCode := 200; headers := Some AllowAll;
              body := PayloadBody (mkPayload qs stats items' "serpapi" false) |},
           {| data := Some (mkPayload qs stats items' "serpapi" true);
              timestamp := now_store w; query := qs |},
           calls s')
      end
    else
      let stats := calculateSalesMetrics items in
      ({| statusCode := 200; headers := Some AllowAll;
          body := PayloadBody (mkPayload qs stats items "scrapingbee" false) |},
       {| data := Some (mkPayload qs stats items "scrapingbee" true);
          timestamp := now_store w; query := qs |},
       calls s1).
Proof.
  intros (Hq & Hvalid & Hmiss & Hmethod & Hbee).
  unfold handler, handlerTry. run_monad.
  rewrite Hq, (validQuery_guard _ Hvalid), Hmiss, Hmethod, Hbee.
  cbv zeta.
  destruct (List.length (extract html qs) <? 3)%nat.
  - destruct (fetchSerp parseCurrency w qs _) as [[error | fetched] s'];
      reflexivity.
  - reflexivity.
Qed.


(** Every invocation leaves the cache as it was or writes a fresh entry
    for a valid query, stamped with the time of the write. *)
Lemma handler_cache_cases (w : World) (event : Event) (c : Cache) :
  snd (fst (handler parseCurrency w event c)) = c
  \/ exists qs stats items source,
      validQuery qs = true
      /\ snd (fst (handler parseCurrency w event c))
         = {| data := Some (mkPayload qs stats items source true);
              timestamp := now_store w; query := qs |}.
Proof.
  destruct (q event) as [qs|] eqn:Hq.
  2:{ left. unfold handler, handlerTry. run_monad. now rewrite Hq. }
  destruct (validQuery qs) eqn:Hvalid.
  2:{ left. unfold handler, handlerTry. run_monad.
      now rewrite Hq, (invalidQuery_guard _ Hvalid). }
  destruct (lookup (durationFromLastFetch (now_check w) c) qs c) eqn:Hlook.
  { left. unfold handler, handlerTry. run_monad.
    now rewrite Hq, (validQuery_guard _ Hvalid), Hlook. }
  destruct (String.eqb (httpMethod event) "OPTIONS") eqn:Hmethod.
  { left. unfold handler, handlerTry. run_monad.
    now rewrite Hq, (validQuery_guard _ Hvalid), Hlook, Hmethod. }
  destruct (scrapingbee w) as [e | html] eqn:Hbee.
  { left. unfold handler, handlerTry. run_monad.
    now rewrite Hq, (validQuery_guard _ Hvalid), Hlook, Hmethod, Hbee. }
  rewrite (@handler_after_extraction w event c qs html)
    by (repeat split; assumption).
  cbv zeta.
  destruct (List.length (extract html qs) <? 3)%nat.
  - pose proof (fetchSerp_store parseCurrency w qs
                  {| cache := c;
                     calls := [ScrapingBeeGet (scrapURL (spacesToPlus qs))] |})
      as [Hcache _].
    destruct (fetchSerp parseCurrency w qs _) as [[e | fetched] s'].
    + left. exact Hcache.
    + right. repeat eexists. exact Hvalid.
  - right. repeat eexists. exact Hvalid.
Qed.

Lemma reachable_invariant (c : Cache) :
  Reachable parseCurrency c -> cacheInvariant c.
Proof.
  induction 1 as [|w event c Hreach IH Hclock].
  - exact I.
  - destruct (handler_cache_cases w event c)
      as [-> | (qs & stats & items & source & Hvalid & ->)].
    + exact IH.
    + unfold cacheInvariant. simpl. auto.
Qed.

Lemma lookup_hit_iff (now : Z) (qs : string) (c : Cache) (entry : Payload) :
  cacheInvariant c ->
  lookup (durationFromLastFetch now c) qs c = Some entry
  <-> data c = Some entry /\ query c = qs
      /\ (now - timestamp c < 60 * 60 * 1000)%Z.
Proof.
  unfold cacheInvariant, lookup, durationFromLastFetch.
  destruct (data c) as [stored|].
  - intros (Hstamp & _ & _).
    apply Z.eqb_neq in Hstamp. rewrite Hstamp.
    unfold CACHE_DURATION.
    destruct (Z.ltb_spec (now - timestamp c) (60 * 60 * 1000)) as [Hage | Hage];
      destruct (String.eqb_spec (query c) qs) as [Hquery | Hquery]; simpl.
    + split; [intros H; auto | intros (H & _ & _); exact H].
    + split; [discriminate | intros (_ & H & _); contradiction].
    + split; [discriminate | intros (_ & _ & H); lia].
    + split; [discriminate | intros (_ & H & _); contradiction].
  - intros _. split; [discriminate | intros [H _]; discriminate].
Qed.

(** C1, in the form that holds of the code.  When the primary extraction yields fewer than three
    listings (zero included) the handler calls the fallback client; if that
    call returns, the response's [source] is [serpapi], and if it throws,
    the response is the 500 error body, which has no [source].  When the
    extraction yields three or more listings the fallback client is never
    called and the response's [source] is [scrapingbee]. *)
Theorem C1_branch_selection (w : World) (event : Event) (c : Cache)
        (qs : string) (html : Document) :
  primaryExtraction w event c qs html ->
  let response := fst (fst (handler parseCurrency w event c)) in
  let trace := snd (handler parseCurrency w event c) in
  let n := List.length (extract html qs) in
  ((n < 3)%nat ->
   In (FetchSerp qs) trace
   /\ match fst (fetchSerp parseCurrency w qs
                   {| cache := c;
                      calls := [ScrapingBeeGet (scrapURL (spacesToPlus qs))] |})
      with
      | inr _ => sourceOf response = Some "serpapi"
      | inl error => response = response500 error
      end)
  /\ ((3 <= n)%nat ->
      Forall (fun call => isFallbackCall call = false) trace
      /\ sourceOf response = Some "scrapingbee").
Proof.
  intros Hreach. cbv zeta.
  rewrite (handler_after_extraction Hreach). cbv zeta.
  split.
  - intros Hn. apply Nat.ltb_lt in Hn. rewrite Hn.
    pose proof (fetchSerp_store parseCurrency w qs
                  {| cache := c;
                     calls := [ScrapingBeeGet (scrapURL (spacesToPlus qs))] |})
      as [_ [more Hcalls]].
    destruct (fetchSerp parseCurrency w qs _) as [[error | fetched] s'];
      simpl in *; (split; [rewrite Hcalls; simpl; auto | reflexivity]).
  - intros Hn. apply Nat.ltb_ge in Hn. rewrite Hn. simpl.
    split; [repeat constructor | reflexivity].
Qed.

(** C2. The cache lookup is a hit exactly when an entry is stored, its
    query is the requested query string, and less than sixty minutes have
    passed since the entry's timestamp; on a hit the response carries the
    stored payload, which is marked [cached = true], the cache is left
    alone and no call leaves the handler. *)
Theorem C2_cache_hit (w : World) (event : Event) (c : Cache) (qs : string) :
  Reachable parseCurrency c ->
  q event = Some qs ->
  (forall entry,
      lookup (durationFromLastFetch (now_check w) c) qs c = Some entry
      <-> data c = Some entry /\ query c = qs
          /\ (now_check w - timestamp c < 60 * 60 * 1000)%Z)
  /\ (forall entry,
         lookup (durationFromLastFetch (now_check w) c) qs c = Some entry ->
         p_cached entry = true
         /\ handler parseCurrency w event c
            = ({| statusCode := 200; headers := Some AllowAll;
                  body := PayloadBody entry |}, c, [])).
Proof.
  intros Hreach Hq.
  pose proof (reachable_invariant Hreach) as Hinv.
  split.
  - intros entry. now apply lookup_hit_iff.
  - intros entry Hhit.
    pose proof (proj1 (@lookup_hit_iff (now_check w) qs c entry Hinv) Hhit)
      as (Hdata & Hquery & _).
    unfold cacheInvariant in Hinv. rewrite Hdata in Hinv.
    destruct Hinv as (_ & Hcached & Hvalid). rewrite Hquery in Hvalid.
    split; [exact Hcached |].
    unfold handler, handlerTry. run_monad.
    now rewrite Hq, (validQuery_guard _ Hvalid), Hhit.
Qed.


(** C9. A provider response with an organic result that has no [price]
    member makes the mapping of the fallback client throw (a TypeError from
    reading [.raw] of [undefined]); the item is neither skipped nor given
    the price 0, and the request ends with the 500 response. *)
Theorem C9_missing_price_ends_in_500 (w : World) (event : Event) (c : Cache)
        (qs key : string) (html : Document) (r : SerpResponse)
        (results : list Organic.t) (it : Organic.t) :
  primaryExtraction w event c qs html ->
  (List.length (extract html qs) < 3)%nat ->
  SERP_KEY w = Some key -> truthy key = true ->
  serpapi w = inr r -> ok r = true -> json r = inr (Some results) ->
  In it results -> Organic.price it = None ->
  toSoldItem parseCurrency (now_iso w) it
  = inl (TypeError "Cannot read properties of undefined (reading 'raw')")
  /\ exists error trace,
      handler parseCurrency w event c = (response500 error, c, trace).
Proof.
  intros Hreach Hn Hkey Htruthy Hserp Hok Hjson Hin Hprice.
  split; [now apply toSoldItem_no_price |].
  rewrite (handler_after_extraction Hreach). cbv zeta.
  apply Nat.ltb_lt in Hn. rewrite Hn.
  pose proof (fetchSerp_store parseCurrency w qs
                {| cache := c;
                   calls := [ScrapingBeeGet (scrapURL (spacesToPlus qs))] |})
    as [Hcache _].
  destruct (@fetchSerp_missing_price parseCurrency w qs key r results it
              {| cache := c;
                 calls := [ScrapingBeeGet (scrapURL (spacesToPlus qs))] |}
              Hkey Htruthy Hserp Hok Hjson Hin Hprice) as [error Herror].
  destruct (fetchSerp parseCurrency w qs _) as [[e | fetched] s'];
    simpl in *; [|discriminate].
  exists e, (calls s'). now rewrite Hcache.
Qed.

(** C10. A listing emitted by the primary extraction has a title and a
    price and nothing else: currency, soldDate, condition, imageUrl, itemUrl
    and shipping are absent, and these are the listings the response carries
    when the primary source is used. *)
Theorem C10_primary_listings_title_and_price_only (html : Document)
        (qs : string) :
  Forall onlyTitleAndPrice (extract html qs)
  /\ forall w event c,
      primaryExtraction w event c qs html ->
      (3 <= List.length (extract html qs))%nat ->
      body (fst (fst (handler parseCurrency w event c)))
      = PayloadBody (mkPayload qs (calculateSalesMetrics (extract html qs))
                               (extract html qs) "scrapingbee" false).
Proof.
  split; [apply extract_only_title_price |].
  intros w event c Hreach Hn.
  rewrite (handler_after_extraction Hreach). cbv zeta.
  apply Nat.ltb_ge in Hn. rewrite Hn. reflexivity.
Qed.

End HandlerProperties.

(* ================================================================= *)
(** ** The properties at sample inputs *)

Section SampleRuns.
Open Scope string_scope.

Lemma sample_reaches_extraction (html : Document) (serp : JsError + SerpResponse) :
  primaryExtraction (sampleWorld html serp) sampleEvent initialCache
                    "red widget" html.
Proof. repeat split. Qed.

Lemma sampleStored_reachable : Reachable sampleParseCurrency sampleStored.
Proof.
  unfold sampleStored.
  apply reach_invocation; [apply reach_initial | discriminate].
Qed.

End SampleRuns.

(** Two listings: the answer comes from the fallback client.  Three
    listings: the fallback client is not called. *)
Lemma C1_witness :
  (sourceOf (fst (fst (handler sampleParseCurrency
                         (sampleWorld [cardPriced; cardNoPrice]
                                      (serpOk [organicNoThumbnail]))
                         sampleEvent initialCache)))
   = Some "serpapi"%string)
  /\ (sourceOf (fst (fst (handler sampleParseCurrency
                            (sampleWorld [cardPriced; cardNoPrice; cardPriced]
                                         (serpOk [organicNoThumbnail]))
                            sampleEvent initialCache)))
      = Some "scrapingbee"%string).
Proof.
  split.
  - destruct (C1_branch_selection sampleParseCurrency
                (sample_reaches_extraction [cardPriced; cardNoPrice]
                                           (serpOk [organicNoThumbnail])))
      as [Hfew _].
    destruct (Hfew ltac:(simpl; lia)) as [_ Hsource].
    exact Hsource.
  - destruct (C1_branch_selection sampleParseCurrency
                (sample_reaches_extraction [cardPriced; cardNoPrice; cardPriced]
                                           (serpOk [organicNoThumbnail])))
      as [_ Hmany].
    destruct (Hmany ltac:(simpl; lia)) as [_ Hsource].
    exact Hsource.
Defined.

(** C1 as stated fails: two listings are extracted, the fallback provider
    answers 503, and the response has no [source] at all. *)
Lemma C1_counterexample :
  primaryExtraction (sampleWorld [cardPriced; cardPriced] serpUnavailable)
                    sampleEvent initialCache "red widget" [cardPriced; cardPriced]
  /\ List.length (extractSellItemsFromHTML sampleParseCurrency
                    [cardPriced; cardPriced] "red widget") = 2%nat
  /\ handler sampleParseCurrency
       (sampleWorld [cardPriced; cardPriced] serpUnavailable)
       sampleEvent initialCache
     = (response500 (Error "SerpAPI ERROR 503"), initialCache,
        [ScrapingBeeGet
           "https://www.ebay.com/sch/i.html?_nkw=red+widget&_sop=12&LH_Active=1&_ipg=240&LH_PrefLoc=3";
         FetchSerp "red widget";
         SerpApiGet (serpParams "red widget" "key")])
  /\ sourceOf (fst (fst (handler sampleParseCurrency
                           (sampleWorld [cardPriced; cardPriced] serpUnavailable)
                           sampleEvent initialCache)))
     <> Some "serpapi"%string.
Proof.
  split; [apply sample_reaches_extraction |].
  split; [reflexivity |].
  split; [reflexivity |].
  vm_compute. discriminate.
Qed.

(** A second request for the same query, 3599999 ms after the entry was
    written, is answered from the cache. *)
Lemma C2_witness :
  exists entry,
    data sampleStored = Some entry
    /\ p_cached entry = true
    /\ handler sampleParseCurrency laterWorld sampleEvent sampleStored
       = ({| statusCode := 200; headers := Some AllowAll;
             body := PayloadBody entry |}, sampleStored, []).
Proof.
  destruct (@C2_cache_hit sampleParseCurrency laterWorld sampleEvent
              sampleStored "red widget" sampleStored_reachable eq_refl)
    as [Hiff Hhit].
  eexists. split; [reflexivity |].
  apply Hhit. apply Hiff.
  repeat split.
Defined.

(** C5 at a failing input: a card with a title and a condition but no price
    text is emitted with an absent price, and a page of three such cards is
    answered from the primary source with three priceless listings. *)
Theorem C5_primary_emits_listing_without_price :
  (forall parseCurrency query,
      extractSellItemsFromHTML parseCurrency [cardNoPrice] query
      = [ {| Item.title := "Widget"; Item.price := None;
             Item.currency := None; Item.soldDate := None;
             Item.condition := None; Item.imageUrl := None;
             Item.itemUrl := None; Item.shipping := None |} ])
  /\ (let response :=
        fst (fst (handler sampleParseCurrency
                    (sampleWorld [cardNoPrice; cardNoPrice; cardNoPrice]
                                 serpUnavailable)
                    sampleEvent initialCache)) in
      statusCode response = 200%nat
      /\ sourceOf response = Some "scrapingbee"%string
      /\ match body response with
         | PayloadBody payload =>
             map Item.price (p_items payload) = [None; None; None]
             /\ p_stats payload
                = {| count := 3; p25 := None; median := None; p75 := None |}
         | _ => False
         end).
Proof.
  split.
  - intros parseCurrency query. reflexivity.
  - vm_compute. repeat split.
Qed.

(** C6 as stated fails: a provider result with a link and a price but no
    thumbnail is retained, with an empty [imageUrl]. *)
Lemma C6_counterexample :
  fst (fetchSerp sampleParseCurrency
         (sampleWorld [] (serpOk [organicNoThumbnail])) "red widget"
         {| cache := initialCache; calls := [] |})
  = inr (Some [ {| Item.title := "Widget"; Item.price := Some 10%float;
                   Item.currency := Some "USD"%string;
                   Item.soldDate := Some "2025-01-01T00:00:00.000Z"%string;
                   Item.condition := Some "Unknown"%string;
                   Item.imageUrl := Some ""%string;
                   Item.itemUrl := Some "https://www.ebay.com/itm/1"%string;
                   Item.shipping := Some (ShipCost 0%float) |} ]).
Proof. vm_compute. reflexivity. Qed.

(** Of a result with a link and a result without one, only the first is
    retained. *)
Lemma C6_witness :
  let run := fetchSerp sampleParseCurrency
               (sampleWorld [] (serpOk [organicNoThumbnail; organicNoLink]))
               "red widget" {| cache := initialCache; calls := [] |} in
  exists items,
    fst run = inr (Some items)
    /\ map Item.itemUrl items = [Some "https://www.ebay.com/itm/1"%string]
    /\ Forall (fun x => exists u, Item.itemUrl x = Some u /\ u <> ""%string) items.
Proof.
  cbv zeta.
  eexists. split; [vm_compute; reflexivity |].
  split; [reflexivity |].
  destruct (@C6_fallback_requires_itemUrl sampleParseCurrency
              (sampleWorld [] (serpOk [organicNoThumbnail; organicNoLink]))
              "red widget" {| cache := initialCache; calls := [] |}
              _ _ eq_refl) as [Hall _].
  eapply Forall_impl; [|exact Hall].
  intros x (_ & Hurl & _). exact Hurl.
Defined.


(** A provider response whose second result has no price. *)
Lemma C9_witness :
  exists error trace,
    handler sampleParseCurrency
            (sampleWorld [] (serpOk [organicNoThumbnail; organicNoPrice]))
            sampleEvent initialCache
    = (response500 error, initialCache, trace).
Proof.
  refine (proj2 (@C9_missing_price_ends_in_500 sampleParseCurrency
                   (sampleWorld [] (serpOk [organicNoThumbnail; organicNoPrice]))
                   sampleEvent initialCache "red widget" "key" []
                   {| ok := true; status := 200;
                      json := inr (Some [organicNoThumbnail; organicNoPrice]) |}
                   [organicNoThumbnail; organicNoPrice] organicNoPrice
                   (sample_reaches_extraction [] _) _ eq_refl eq_refl eq_refl
                   eq_refl eq_refl _ eq_refl)).
  - simpl. lia.
  - simpl. auto.
Defined.

(** Three priced cards: the response carries exactly the extracted
    listings. *)
Lemma C10_witness :
  body (fst (fst (handler sampleParseCurrency
                    (sampleWorld [cardPriced; cardPriced; cardPriced]
                                 serpUnavailable)
                    sampleEvent initialCache)))
  = PayloadBody
      (mkPayload "red widget"
         (calculateSalesMetrics
            (extractSellItemsFromHTML sampleParseCurrency
               [cardPriced; cardPriced; cardPriced] "red widget"))
         (extractSellItemsFromHTML sampleParseCurrency
            [cardPriced; cardPriced; cardPriced] "red widget")
         "scrapingbee" false).
Proof.
  apply (proj2 (C10_primary_listings_title_and_price_only sampleParseCurrency
                  [cardPriced; cardPriced; cardPriced] "red widget")).
  - apply sample_reaches_extraction.
  - simpl. lia.
Defined.

(* ================================================================= *)
(** ** Further properties: texts and prices *)

Section TextProperties.
Open Scope string_scope.

Lemma trimStart_empty_iff (s : string) :
  trimStart s = "" <-> allWhiteSpace s = true.
Proof.
  induction s as [|c s IH]; simpl.
  - tauto.
  - destruct (isWhiteSpace c); simpl.
    + exact IH.
    + split; discriminate.
Qed.

Lemma trimStart_head (s : string) (c : ascii) (t : string) :
  trimStart s = String c t -> isWhiteSpace c = false.
Proof.
  induction s as [|d s IH]; simpl.
  - discriminate.
  - destruct (isWhiteSpace d) eqn:Hd.
    + exact IH.
    + intros H. inversion H; subst. exact Hd.
Qed.

Lemma trimEnd_nonblank_head (c : ascii) (t : string) :
  isWhiteSpace c = false -> trimEnd (String c t) <> "".
Proof.
  intros Hc. simpl. rewrite Hc.
  destruct (trimEnd t); discriminate.
Qed.

(** [s.trim() === ''] holds exactly of the texts made of white space. *)
Lemma trim_blank_iff (s : string) :
  String.eqb (trim s) "" = true <-> allWhiteSpace s = true.
Proof.
  rewrite String.eqb_eq, <- trimStart_empty_iff. unfold trim.
  destruct (trimStart s) as [|c t] eqn:Hstart.
  - simpl. tauto.
  - split; [|discriminate].
    intros H. exfalso.
    exact (@trimEnd_nonblank_head c t (@trimStart_head s c t Hstart) H).
Qed.

Lemma trim_blank_false_iff (s : string) :
  String.eqb (trim s) "" = false <-> allWhiteSpace s = false.
Proof.
  pose proof (trim_blank_iff s) as H.
  destruct (String.eqb (trim s) ""), (allWhiteSpace s); intuition congruence.
Qed.

Lemma validQuery_iff (qs : string) :
  validQuery qs = true <-> allWhiteSpace qs = false.
Proof.
  unfold validQuery.
  rewrite andb_true_iff, negb_true_iff, trim_blank_false_iff.
  split; [tauto |].
  intros H. split; [|exact H].
  destruct qs; [discriminate | reflexivity].
Qed.






End TextProperties.

Section PriceParser.
Open Scope string_scope.
Variable parseCurrency : string -> option Parsed.t.

Lemma parsePrice_cases (priceStr : string) :
  (allWhiteSpace priceStr = true -> parsePrice parseCurrency priceStr = None)
  /\ (allWhiteSpace priceStr = false ->
      parsePrice parseCurrency priceStr = parseCurrency priceStr).
Proof.
  unfold parsePrice. split; intros H.
  - apply trim_blank_iff in H. now rewrite H.
  - apply trim_blank_false_iff in H. now rewrite H.
Qed.

(** The price parser answers [null] on every text made of white space
    (the empty text included) without consulting [parsecurrency], and hands
    every other text to [parsecurrency] unchanged, not trimmed. *)
Theorem parsePrice_blank_or_delegates (priceStr : string) :
  (allWhiteSpace priceStr = true -> parsePrice parseCurrency priceStr = None)
  /\ (allWhiteSpace priceStr = false ->
      parsePrice parseCurrency priceStr = parseCurrency priceStr).
Proof.
  unfold parsePrice. split; intros H.
  - apply trim_blank_iff in H. now rewrite H.
  - apply trim_blank_false_iff in H. now rewrite H.
Qed.

End PriceParser.

(* ================================================================= *)
(** ** Further properties: shipping texts and the fallback client *)

Section FallbackMore.
Open Scope string_scope.
Variable parseCurrency : string -> option Parsed.t.

Lemma costToString_number (c : float) : costToString (Some c) = inr (ShipCost c).
Proof. reflexivity. Qed.

(** A shipping text never makes [getShippingCost] throw.  The answer is
    ['Unknown'] exactly when the text, in lower case, holds [bids] and does
    not hold [free]; a text that holds [free] costs 0 whatever else it
    holds, and so does a text that holds none of [free], [bids] and
    [delivery]. *)
Theorem getShippingCost_text (shipping : string) :
  (exists answer,
      getShippingCost parseCurrency (ShippingString shipping) = inr answer)
  /\ (getShippingCost parseCurrency (ShippingString shipping) = inr ShipUnknown
      <-> includes (toLowerCase shipping) "free" = false
          /\ includes (toLowerCase shipping) "bids" = true)
  /\ (includes (toLowerCase shipping) "free" = true ->
      getShippingCost parseCurrency (ShippingString shipping)
      = inr (ShipCost 0%float))
  /\ (includes (toLowerCase shipping) "bids" = false ->
      includes shipping "delivery" = false ->
      getShippingCost parseCurrency (ShippingString shipping)
      = inr (ShipCost 0%float)).
Proof.
  unfold getShippingCost.
  destruct (includes (toLowerCase shipping) "free") eqn:Hfree;
    destruct (includes (toLowerCase shipping) "bids") eqn:Hbids;
    destruct (includes shipping "delivery") eqn:Hdelivery; simpl;
    try destruct (parsePrice parseCurrency _) as [parsed|]; simpl;
    repeat split; intros;
    try (eexists; reflexivity); try reflexivity; try discriminate;
    try (destruct H; discriminate); try tauto.
Qed.

Lemma mapE_Forall2 {A B} (f : A -> JsError + B) (l : list A) (ys : list B) :
  mapE f l = inr ys -> Forall2 (fun a y => f a = inr y) l ys.
Proof.
  revert ys. induction l as [|a l IH]; simpl; intros ys H.
  - inversion H. constructor.
  - destruct (f a) as [e | y] eqn:Hfa; [discriminate |].
    destruct (mapE f l) as [e | ys'] eqn:Hrest; [discriminate |].
    inversion H; subst. constructor; [exact Hfa | now apply IH].
Qed.

Lemma Forall2_source {A B} (R : A -> B -> Prop) (l : list A) (ys : list B) (y : B) :
  Forall2 R l ys -> In y ys -> exists a, In a l /\ R a y.
Proof.
  induction 1 as [|a y' l ys Hhead _ IH]; simpl; [tauto |].
  intros [-> | Hin].
  - exists a. auto.
  - destruct (IH Hin) as (a' & Ha' & HR). exists a'. auto.
Qed.

Lemma mapE_throws {A B} (f : A -> JsError + B) (l : list A) (a : A) (e : JsError) :
  In a l -> f a = inl e -> exists e', mapE f l = inl e'.
Proof.
  induction l as [|b l IH]; simpl; [tauto |].
  intros [-> | Hin] Hf.
  - rewrite Hf. now exists e.
  - destruct (f b) as [eb | y]; [now exists eb |].
    destruct (IH Hin Hf) as [e' ->]. now exists e'.
Qed.

(** How a successful call of the fallback client came about. *)
Lemma fetchSerp_success (w : World) (qs : string) (s s' : Store)
      (items : list Item.t) :
  fetchSerp parseCurrency w qs s = (inr (Some items), s') ->
  exists key r j mapped,
    SERP_KEY w = Some key /\ truthy key = true
    /\ serpapi w = inr r /\ ok r = true /\ json r = inr j
    /\ mapE (toSoldItem parseCurrency (now_iso w))
            (match j with Some l => l | None => [] end) = inr mapped
    /\ items = filter retained mapped.
Proof.
  unfold fetchSerp. run_monad.
  destruct (SERP_KEY w) as [key|] eqn:Henv; simpl; [|discriminate].
  destruct (truthy key) eqn:Hkey; simpl; [|discriminate].
  destruct (serpapi w) as [e | r] eqn:Hserp; simpl; [discriminate |].
  destruct (ok r) eqn:Hok; simpl; [|discriminate].
  destruct (json r) as [e | j] eqn:Hjson; simpl; [discriminate |].
  destruct (mapE _ _) as [e | mapped] eqn:Hmap; simpl; [discriminate |].
  intros H. inversion H; subst.
  exists key, r, j, mapped. repeat split; auto.
Qed.

(** Without a configured key the fallback client answers [null] and sends
    nothing. *)
Lemma fetchSerp_no_key (w : World) (qs : string) (s : Store) :
  SERP_KEY w = None \/ SERP_KEY w = Some "" ->
  fetchSerp parseCurrency w qs s
  = (inr None, {| cache := cache s; calls := (calls s ++ [FetchSerp qs])%list |}).
Proof.
  intros [H | H]; unfold fetchSerp; run_monad; rewrite H; reflexivity.
Qed.

(** With a key, the call sends one request and throws what [fetch] or
    [r.json()] throws. *)
Lemma fetchSerp_transport (w : World) (qs key : string) (s : Store) (e : JsError) :
  SERP_KEY w = Some key -> truthy key = true ->
  serpapi w = inl e
  \/ (exists r, serpapi w = inr r /\ ok r = true /\ json r = inl e) ->
  fetchSerp parseCurrency w qs s
  = (inl e, {| cache := cache s;
               calls := (calls s ++ [FetchSerp qs;
                                     SerpApiGet (serpParams qs key)])%list |}).
Proof.
  intros Hkey Htruthy H.
  unfold fetchSerp; run_monad; rewrite Hkey, Htruthy; simpl.
  destruct H as [H | (r & Hserp & Hok & Hjson)].
  - rewrite H. simpl. now rewrite <- app_assoc.
  - rewrite Hserp. simpl. rewrite Hok, Hjson. simpl. now rewrite <- app_assoc.
Qed.

Lemma orElse_default_nonempty (a : option string) (b : string) :
  b <> "" -> orElse a b <> "".
Proof.
  intros Hb. unfold orElse.
  destruct a as [t|]; [|exact Hb].
  destruct (truthy t) eqn:Ht; [|exact Hb].
  now apply truthy_nonempty.
Qed.

Lemma toSoldItem_complete (now : string) (it : Organic.t) (x : Item.t) :
  toSoldItem parseCurrency now it = inr x -> completeListing x.
Proof.
  unfold toSoldItem.
  destruct (Organic.price it) as [price|]; [|discriminate].
  destruct (getShippingCost _ _) as [e | shipping]; [discriminate |].
  intros H. inversion H; subst; clear H.
  unfold completeListing; simpl.
  split.
  { eexists. split; [reflexivity |].
    destruct (parsePrice parseCurrency _) as [parsed|]; [|reflexivity].
    destruct (numTruthy (Parsed.value parsed)) eqn:Hnum; [|reflexivity].
    unfold numTruthy in Hnum. apply andb_true_iff in Hnum. tauto. }
  split.
  { eexists. split; [reflexivity |]. now apply orElse_default_nonempty. }
  split.
  { eexists. split; [reflexivity |]. now apply orElse_default_nonempty. }
  repeat split; eexists; reflexivity.
Qed.

(** Every listing the fallback client returns has all eight members set:
    the price is a number (never NaN), currency and condition are not empty
    ([USD] and [Unknown] stand in for missing ones). *)
Theorem fallback_listings_complete (w : World) (qs : string) (s s' : Store)
        (items : list Item.t) :
  fetchSerp parseCurrency w qs s = (inr (Some items), s') ->
  Forall completeListing items.
Proof.
  intros H.
  destruct (fetchSerp_success _ _ _ H)
    as (key & r & j & mapped & _ & _ & _ & _ & _ & Hmap & ->).
  apply mapE_Forall2 in Hmap.
  apply Forall_forall. intros x Hx.
  apply filter_In in Hx. destruct Hx as [Hx _].
  destruct (Forall2_source x Hmap Hx) as (it & _ & Hit).
  exact (toSoldItem_complete _ _ Hit).
Qed.

(** The listings the fallback client returns are the provider's results,
    mapped one by one and in their order, less the ones the final filter
    rejects: never more listings than results. *)
Theorem fallback_listings_from_results (w : World) (qs : string) (s s' : Store)
        (items : list Item.t) :
  fetchSerp parseCurrency w qs s = (inr (Some items), s') ->
  exists r results mapped,
    serpapi w = inr r
    /\ json r = inr results
    /\ Forall2 (fun it x => toSoldItem parseCurrency (now_iso w) it = inr x)
               (match results with Some l => l | None => [] end) mapped
    /\ items = filter retained mapped
    /\ (List.length items
        <= List.length (match results with Some l => l | None => [] end))%nat.
Proof.
  intros H.
  destruct (fetchSerp_success _ _ _ H)
    as (key & r & j & mapped & _ & _ & Hserp & _ & Hjson & Hmap & ->).
  apply mapE_Forall2 in Hmap.
  exists r, j, mapped. repeat split; auto.
  rewrite (Forall2_length Hmap). apply filter_length_le.
Qed.

(** A provider result whose price has no text that parses (a price range
    without [raw], an unreadable text) is mapped to a listing with price 0,
    which the final filter drops: it is left out, not reported. *)
Theorem fallback_drops_unparsed_price (w : World) (qs : string) (s s' : Store)
        (items : list Item.t) (it : Organic.t) (price : Organic.priceField)
        (x : Item.t) :
  fetchSerp parseCurrency w qs s = (inr (Some items), s') ->
  Organic.price it = Some price ->
  parsePrice parseCurrency (orElse (Organic.raw price) "") = None ->
  toSoldItem parseCurrency (now_iso w) it = inr x ->
  Item.price x = Some 0%float /\ ~ In x items.
Proof.
  intros Hfetch Hprice Hparse Hmap.
  assert (Hzero : Item.price x = Some 0%float).
  { unfold toSoldItem in Hmap. rewrite Hprice in Hmap.
    assert (Hraw : orElse (Organic.raw price) (orElse (Organic.raw price) "")
                   = orElse (Organic.raw price) "").
    { unfold orElse. destruct (Organic.raw price) as [t|]; [|reflexivity].
      destruct (truthy t); reflexivity. }
    rewrite Hraw, Hparse in Hmap.
    destruct (getShippingCost _ _); [discriminate |].
    inversion Hmap; subst; reflexivity. }
  split; [exact Hzero |].
  intros Hin.
  pose proof (fetchSerp_filtered _ _ _ _ Hfetch) as Hall.
  rewrite Forall_forall in Hall. specialize (Hall x Hin).
  apply (retained_iff parseCurrency) in Hall. destruct Hall as (_ & _ & Hpos).
  rewrite Hzero in Hpos. simpl in Hpos. vm_compute in Hpos. discriminate.
Qed.

End FallbackMore.

(* ================================================================= *)
(** ** Further properties: statistics and extraction *)

Section StatsMore.
Open Scope float_scope.

Lemma at_undefined (n : nat) (k : float) : at_ (repeat None n) k = None.
Proof.
  unfold at_. destruct (arrayIndex k) as [i|]; [|reflexivity].
  destruct (nth_error (repeat None n) i) as [v|] eqn:Hnth; [|reflexivity].
  apply nth_error_In, repeat_spec in Hnth. exact Hnth.
Qed.

Lemma prices_all_undefined (items : list Item.t) :
  Forall (fun it => Item.price it = None) items ->
  sortArray (map Item.price items) = repeat None (List.length items).
Proof.
  unfold sortArray.
  induction 1 as [|it items Hit _ IH]; simpl.
  - reflexivity.
  - rewrite Hit. simpl.
    destruct (defined (map Item.price items)) as [|x rest] eqn:Hdef.
    + simpl in *. now rewrite IH.
    + exfalso. simpl in IH.
      assert (Hlen : List.length (map Some (insertSorted x (sortNumbers rest))
                                    ++ repeat None
                                         (undefinedCount (map Item.price items)))
                     = List.length (repeat (@None float) (List.length items)))
        by now rewrite IH.
      assert (Hhead : exists y tail,
                 map Some (insertSorted x (sortNumbers rest))
                 ++ repeat None (undefinedCount (map Item.price items))
                 = Some y :: tail).
      { destruct (insertSorted x (sortNumbers rest)) as [|y tail] eqn:Hins.
        - pose proof (Permutation_length (insertSorted_perm x (sortNumbers rest)))
            as Hp. rewrite Hins in Hp. discriminate.
        - simpl. eauto. }
      destruct Hhead as (y & tail & Hhead). rewrite Hhead in IH.
      destruct items; simpl in IH; [discriminate |]. discriminate.
Qed.

(** When no listing has a price, the count is still the number of listings
    but p25, median and p75 are all [undefined]. *)
Theorem stats_of_priceless_listings (items : list Item.t) :
  Forall (fun it => Item.price it = None) items ->
  calculateSalesMetrics items
  = {| count := List.length items; p25 := None; median := None; p75 := None |}.
Proof.
  intros H. unfold calculateSalesMetrics, quantile.
  rewrite (prices_all_undefined H), !at_undefined. reflexivity.
Qed.

(** For a single listing all three quantiles are its price, whatever the
    price is. *)
Theorem stats_of_single_listing (it : Item.t) (x : float) :
  Item.price it = Some x ->
  calculateSalesMetrics [it]
  = {| count := 1; p25 := Some x; median := Some x; p75 := Some x |}.
Proof.
  intros H. unfold calculateSalesMetrics. simpl. rewrite H. reflexivity.
Qed.

(** For two listings the quantiles interpolate between the two prices: with
    [lo] and [hi] the prices in sorted order, p25, median and p75 are
    [lo + 0.25 * (hi - lo)], [lo + 0.5 * (hi - lo)] and
    [lo + 0.75 * (hi - lo)]. *)
Theorem stats_of_two_listings (a b : Item.t) (x y : float) :
  Item.price a = Some x -> Item.price b = Some y ->
  let lo := if PrimFloat.ltb 0 (x - y) then y else x in
  let hi := if PrimFloat.ltb 0 (x - y) then x else y in
  calculateSalesMetrics [a; b]
  = {| count := 2;
       p25 := Some (lo + 0.25 * (hi - lo));
       median := Some (lo + 0.5 * (hi - lo));
       p75 := Some (lo + 0.75 * (hi - lo)) |}.
Proof.
  intros Ha Hb. unfold calculateSalesMetrics. simpl.
  rewrite Ha, Hb. unfold quantile, sortArray. simpl. unfold compareFn.
  destruct (PrimFloat.ltb 0 (x - y)); reflexivity.
Qed.

End StatsMore.

Section ExtractorMore.
Open Scope string_scope.
Variable parseCurrency : string -> option Parsed.t.

Lemma extract_app (html1 html2 : Document) (query : string) :
  extractSellItemsFromHTML parseCurrency (html1 ++ html2)%list query
  = (extractSellItemsFromHTML parseCurrency html1 query
     ++ extractSellItemsFromHTML parseCurrency html2 query)%list.
Proof.
  induction html1 as [|card html1 IH]; simpl; [reflexivity |].
  destruct (emitted card); simpl; now rewrite IH.
Qed.

(** Each card is judged on its own and only by its title, price text and
    condition: the listings of a page do not depend on the query or on the
    shipping attributes, the listings of two pieces of markup put together
    are the listings of the first followed by those of the second, and there
    are never more listings than cards. *)
Theorem extractor_judges_cards_alone (html1 html2 : Document) (q1 q2 : string) :
  extractSellItemsFromHTML parseCurrency html1 q1
  = extractSellItemsFromHTML parseCurrency html1 q2
  /\ extractSellItemsFromHTML parseCurrency
       (map (fun card =>
               {| Card.title := Card.title card; Card.price := Card.price card;
                  Card.condition := Card.condition card;
                  Card.shippingInfo := [] |}) html1) q1
     = extractSellItemsFromHTML parseCurrency html1 q1
  /\ extractSellItemsFromHTML parseCurrency (html1 ++ html2)%list q1
     = (extractSellItemsFromHTML parseCurrency html1 q1
        ++ extractSellItemsFromHTML parseCurrency html2 q1)%list
  /\ (List.length (extractSellItemsFromHTML parseCurrency html1 q1)
      <= List.length html1)%nat.
Proof.
  split; [now rewrite !extract_filter_map |].
  split.
  { assert (Hemitted : forall card,
               emitted {| Card.title := Card.title card;
                          Card.price := Card.price card;
                          Card.condition := Card.condition card;
                          Card.shippingInfo := [] |} = emitted card)
      by reflexivity.
    induction html1 as [|card html1 IH]; simpl; [reflexivity |].
    rewrite Hemitted.
    destruct (emitted card); simpl; now rewrite IH. }
  split; [apply extract_app | apply extract_length_le].
Qed.

(** An emitted listing has a price exactly when its card's price text is
    not blank and [parsecurrency] reads it. *)
Theorem extractor_price_present_iff (card : Card.t) :
  Item.price (resultData parseCurrency card) <> None
  <-> allWhiteSpace (Card.price card) = false
      /\ parseCurrency (Card.price card) <> None.
Proof.
  unfold resultData. simpl.
  destruct (parsePrice_cases parseCurrency (Card.price card))
    as [Hblank Hdelegate].
  destruct (allWhiteSpace (Card.price card)).
  - rewrite (Hblank eq_refl). simpl. split; [intros H; now elim H |].
    intros [H _]. discriminate.
  - rewrite (Hdelegate eq_refl).
    destruct (parseCurrency (Card.price card)); simpl.
    + split; [intros _; split; [reflexivity | discriminate] | discriminate].
    + split; [intros H; now elim H | intros [_ H]; now elim H].
Qed.

End ExtractorMore.

(* ================================================================= *)
(** ** Further properties: the handler *)

Section HandlerMore.
Open Scope string_scope.
Variable parseCurrency : string -> option Parsed.t.

Local Abbreviation extract := (extractSellItemsFromHTML parseCurrency).

(** The handler, path by path. *)
Lemma handler_paths (w : World) (event : Event) (c : Cache) :
  handler parseCurrency w event c =
    match q event with
    | None => (response400, c, [])
    | Some qs =>
        if allWhiteSpace qs then (response400, c, [])
        else
          match lookup (durationFromLastFetch (now_check w) c) qs c with
          | Some cached => (response200 cached, c, [])
          | None =>
              if String.eqb (httpMethod event) "OPTIONS"
              then (responsePreflight, c, [])
              else
                match scrapingbee w with
                | inl error => (response500 error, c, [primaryCall qs])
                | inr html =>
                    let items := extract html qs in
                    if (List.length items <? 3)%nat then
                      match fetchSerp parseCurrency w qs
                              {| cache := c; calls := [primaryCall qs] |} with
                      | (inl error, s') => (response500 error, cache s', calls s')
                      | (inr fetched, s') =>
                          let items' :=
                            match fetched with Some l => l | None => [] end in
                          let stats := calculateSalesMetrics items' in
                          (response200 (mkPayload qs stats items' "serpapi" false),
                           {| data := Some (mkPayload qs stats items' "serpapi" true);
                              timestamp := now_store w; query := qs |},
                           calls s')
                      end
                    else
                      let stats := calculateSalesMetrics items in
                      (response200 (mkPayload qs stats items "scrapingbee" false),
                       {| data := Some (mkPayload qs stats items "scrapingbee" true);
                          timestamp := now_store w; query := qs |},
                       [primaryCall qs])
                end
          end
    end.
Proof.
  destruct (q event) as [qs|] eqn:Hq.
  2:{ unfold handler, handlerTry. run_monad. now rewrite Hq. }
  destruct (allWhiteSpace qs) eqn:Hblank.
  { assert (Hvalid : validQuery qs = false).
    { destruct (validQuery qs) eqn:E; [|reflexivity].
      apply validQuery_iff in E. congruence. }
    unfold handler, handlerTry. run_monad.
    now rewrite Hq, (invalidQuery_guard _ Hvalid). }
  assert (Hvalid : validQuery qs = true) by now apply validQuery_iff.
  destruct (lookup (durationFromLastFetch (now_check w) c) qs c) eqn:Hlook.
  { unfold handler, handlerTry. run_monad.
    now rewrite Hq, (validQuery_guard _ Hvalid), Hlook. }
  destruct (String.eqb (httpMethod event) "OPTIONS") eqn:Hmethod.
  { unfold handler, handlerTry. run_monad.
    now rewrite Hq, (validQuery_guard _ Hvalid), Hlook, Hmethod. }
  destruct (scrapingbee w) as [e | html] eqn:Hbee.
  { unfold handler, handlerTry. run_monad.
    now rewrite Hq, (validQuery_guard _ Hvalid), Hlook, Hmethod, Hbee. }
  apply handler_after_extraction. repeat split; assumption.
Qed.

(** The calls of the fallback client: its own, then at most one request. *)
Lemma fetchSerp_calls (w : World) (qs : string) (s : Store) :
  calls (snd (fetchSerp parseCurrency w qs s)) = (calls s ++ [FetchSerp qs])%list
  \/ exists key,
      SERP_KEY w = Some key
      /\ calls (snd (fetchSerp parseCurrency w qs s))
         = (calls s ++ [FetchSerp qs; SerpApiGet (serpParams qs key)])%list.
Proof.
  unfold fetchSerp. run_monad.
  destruct (SERP_KEY w) as [key|]; simpl; [|now left].
  destruct (truthy key); simpl; [|now left].
  right. exists key. split; [reflexivity |].
  destruct (serpapi w) as [e | r]; simpl; [now rewrite <- app_assoc |].
  destruct (ok r); simpl; [|now rewrite <- app_assoc].
  destruct (json r) as [e | j]; simpl; [now rewrite <- app_assoc |].
  destruct (mapE _ _) as [e | mapped]; simpl; now rewrite <- app_assoc.
Qed.

(** The handler answers 400 exactly when [q] is missing or made of white
    space only; it then sends no CORS headers, leaves the cache alone and
    calls nobody. *)
Theorem bad_request_iff_blank_query (w : World) (event : Event) (c : Cache) :
  (q event = None \/ (exists qs, q event = Some qs /\ allWhiteSpace qs = true) ->
   handler parseCurrency w event c = (response400, c, []))
  /\ (statusCode (fst (fst (handler parseCurrency w event c))) = 400%nat ->
      q event = None \/ (exists qs, q event = Some qs /\ allWhiteSpace qs = true)).
Proof.
  rewrite handler_paths. split.
  - intros [-> | (qs & -> & ->)]; reflexivity.
  - destruct (q event) as [qs|]; [|now left].
    destruct (allWhiteSpace qs) eqn:Hblank; [right; now exists qs |].
    destruct (lookup _ qs c); [discriminate |].
    destruct (String.eqb (httpMethod event) "OPTIONS"); [discriminate |].
    destruct (scrapingbee w) as [e | html]; [discriminate |].
    cbv zeta.
    destruct (List.length (extract html qs) <? 3)%nat; [|discriminate].
    destruct (fetchSerp parseCurrency w qs _) as [[e | fetched] s'];
      discriminate.
Qed.

(** An OPTIONS request never reaches a provider and never writes the
    cache.  Validation and the cache come first: without a usable [q] it
    gets the 400 answer, with a [q] the cache answers it gets the stored
    payload, and it gets the preflight text exactly when it carries a
    usable [q] that the cache does not answer. *)
Theorem preflight_is_local (w : World) (event : Event) (c : Cache) :
  String.eqb (httpMethod event) "OPTIONS" = true ->
  snd (handler parseCurrency w event c) = []
  /\ snd (fst (handler parseCurrency w event c)) = c
  /\ (q event = None ->
      fst (fst (handler parseCurrency w event c)) = response400)
  /\ (forall qs,
         q event = Some qs -> allWhiteSpace qs = true ->
         fst (fst (handler parseCurrency w event c)) = response400)
  /\ (forall qs cached,
         q event = Some qs -> allWhiteSpace qs = false ->
         lookup (durationFromLastFetch (now_check w) c) qs c = Some cached ->
         fst (fst (handler parseCurrency w event c)) = response200 cached)
  /\ (forall qs,
         q event = Some qs -> allWhiteSpace qs = false ->
         lookup (durationFromLastFetch (now_check w) c) qs c = None ->
         fst (fst (handler parseCurrency w event c)) = responsePreflight)
  /\ (fst (fst (handler parseCurrency w event c)) = responsePreflight ->
      exists qs,
        q event = Some qs /\ allWhiteSpace qs = false
        /\ lookup (durationFromLastFetch (now_check w) c) qs c = None).
Proof.
  intros Hmethod. rewrite handler_paths, Hmethod.
  split.
  { destruct (q event) as [qs|]; [|reflexivity].
    destruct (allWhiteSpace qs); [reflexivity |].
    destruct (lookup _ qs c); reflexivity. }
  split.
  { destruct (q event) as [qs|]; [|reflexivity].
    destruct (allWhiteSpace qs); [reflexivity |].
    destruct (lookup _ qs c); reflexivity. }
  split; [intros ->; reflexivity |].
  split; [intros qs -> ->; reflexivity |].
  split; [intros qs cached -> -> ->; reflexivity |].
  split; [intros qs -> -> ->; reflexivity |].
  destruct (q event) as [qs|]; [|discriminate].
  destruct (allWhiteSpace qs) eqn:Hblank; [discriminate |].
  destruct (lookup _ qs c) eqn:Hlook; [discriminate |].
  intros _. exists qs. auto.
Qed.

(** What a run that gets past extraction and answers with a payload
    leaves in the cache. *)
Lemma fresh_answer_store (w : World) (event : Event) (c : Cache)
      (qs : string) (html : Document) (p : Payload) :
  primaryExtraction w event c qs html ->
  body (fst (fst (handler parseCurrency w event c))) = PayloadBody p ->
  snd (fst (handler parseCurrency w event c))
  = {| data := Some (storedCopy p); timestamp := now_store w; query := qs |}
  /\ p_cached p = false
  /\ p_query p = qs
  /\ p_stats p = calculateSalesMetrics (p_items p).
Proof.
  intros Hreach. rewrite (handler_after_extraction parseCurrency Hreach). cbv zeta.
  destruct (List.length (extract html qs) <? 3)%nat.
  - destruct (fetchSerp parseCurrency w qs _) as [[e | fetched] s'];
      simpl; [discriminate |].
    intros H. inversion H; subst. repeat split.
  - simpl. intros H. inversion H; subst. repeat split.
Qed.

(** A freshly computed answer is stored as it is sent, except that the
    stored copy says [cached: true] and the sent one [cached: false]; the
    entry is stamped with the time of the write and keyed by the query, and
    its stats are the stats of its items. *)
Theorem fresh_answer_is_stored (w : World) (event : Event) (c : Cache)
        (qs : string) (html : Document) (p : Payload) :
  primaryExtraction w event c qs html ->
  body (fst (fst (handler parseCurrency w event c))) = PayloadBody p ->
  snd (fst (handler parseCurrency w event c))
  = {| data := Some (storedCopy p); timestamp := now_store w; query := qs |}
  /\ p_cached p = false
  /\ p_query p = qs
  /\ p_stats p = calculateSalesMetrics (p_items p).
Proof.
  intros Hreach Hbody.
  destruct (fresh_answer_store Hreach Hbody) as (Hstore & Hflag & Hquery & Hstats).
  repeat split; assumption.
Qed.

(** Store, then look up: after a run that answered with a payload, any
    request for the same query that arrives less than sixty minutes after
    the write, whatever its method, is answered with the stored copy of
    that payload, without any call and without touching the cache. *)
Theorem stored_answer_round_trip (w1 w2 : World) (event1 event2 : Event)
        (c : Cache) (qs : string) (html : Document) (p : Payload) :
  primaryExtraction w1 event1 c qs html ->
  body (fst (fst (handler parseCurrency w1 event1 c))) = PayloadBody p ->
  now_store w1 <> 0%Z ->
  q event2 = Some qs ->
  (now_check w2 - now_store w1 < 60 * 60 * 1000)%Z ->
  handler parseCurrency w2 event2 (snd (fst (handler parseCurrency w1 event1 c)))
  = (response200 (storedCopy p),
     snd (fst (handler parseCurrency w1 event1 c)), []).
Proof.
  intros Hreach Hbody Hclock Hq Hage.
  destruct (fresh_answer_store Hreach Hbody) as (Hstore & _).
  destruct Hreach as (_ & Hvalid & _).
  rewrite Hstore, handler_paths, Hq.
  apply validQuery_iff in Hvalid. rewrite Hvalid.
  unfold lookup, durationFromLastFetch. simpl.
  apply Z.eqb_neq in Hclock. rewrite Hclock.
  apply Z.ltb_lt in Hage. unfold CACHE_DURATION. rewrite Hage.
  rewrite String.eqb_refl. reflexivity.
Qed.

(** An entry does not answer a request for another query, and it does not
    answer once sixty minutes or more have passed: such a request, if it is
    valid and not a preflight, starts with a call of the primary provider
    for its own query. *)
Theorem stale_or_other_query_refetches (w : World) (event : Event) (c : Cache)
        (qs : string) :
  q event = Some qs -> allWhiteSpace qs = false ->
  String.eqb (httpMethod event) "OPTIONS" = false ->
  query c <> qs \/ (60 * 60 * 1000 <= now_check w - timestamp c)%Z ->
  lookup (durationFromLastFetch (now_check w) c) qs c = None
  /\ exists more, snd (handler parseCurrency w event c) = primaryCall qs :: more.
Proof.
  intros Hq Hvalid Hmethod Hmiss.
  assert (Hlook : lookup (durationFromLastFetch (now_check w) c) qs c = None).
  { unfold lookup, durationFromLastFetch.
    destruct (data c); [|reflexivity].
    destruct (timestamp c =? 0)%Z; [reflexivity |].
    destruct Hmiss as [Hother | Hold].
    - apply String.eqb_neq in Hother. rewrite Hother.
      now rewrite andb_false_r.
    - apply Z.ltb_ge in Hold. unfold CACHE_DURATION. now rewrite Hold. }
  split; [exact Hlook |].
  rewrite handler_paths, Hq, Hvalid, Hlook, Hmethod.
  destruct (scrapingbee w) as [e | html]; [now exists [] |].
  cbv zeta.
  destruct (List.length (extract html qs) <? 3)%nat; [|now exists []].
  pose proof (fetchSerp_store parseCurrency w qs
                {| cache := c; calls := [primaryCall qs] |})
    as [_ [more Hcalls]].
  destruct (fetchSerp parseCurrency w qs _) as [[e | fetched] s'];
    simpl in *; rewrite Hcalls; eexists; reflexivity.
Qed.

(** When the primary provider cannot be fetched the request ends with the
    500 answer that carries the error: the fallback client is not tried and
    the cache is left alone. *)
Theorem primary_failure_skips_fallback (w : World) (event : Event) (c : Cache)
        (qs : string) (error : JsError) :
  q event = Some qs -> allWhiteSpace qs = false ->
  lookup (durationFromLastFetch (now_check w) c) qs c = None ->
  String.eqb (httpMethod event) "OPTIONS" = false ->
  scrapingbee w = inl error ->
  handler parseCurrency w event c = (response500 error, c, [primaryCall qs]).
Proof.
  intros Hq Hvalid Hlook Hmethod Hbee.
  now rewrite handler_paths, Hq, Hvalid, Hlook, Hmethod, Hbee.
Qed.

(** Without a configured fallback key (unset or empty) a page with fewer
    than three listings is answered 200 with no items, count 0, undefined
    quantiles and source [serpapi]; no request is sent to the fallback
    provider, and this empty answer is stored like any other. *)
Theorem missing_key_gives_empty_answer (w : World) (event : Event) (c : Cache)
        (qs : string) (html : Document) :
  primaryExtraction w event c qs html ->
  (List.length (extract html qs) < 3)%nat ->
  SERP_KEY w = None \/ SERP_KEY w = Some "" ->
  let stats := {| count := 0; p25 := None; median := None; p75 := None |} in
  handler parseCurrency w event c
  = (response200 (mkPayload qs stats [] "serpapi" false),
     {| data := Some (mkPayload qs stats [] "serpapi" true);
        timestamp := now_store w; query := qs |},
     [primaryCall qs; FetchSerp qs]).
Proof.
  intros Hreach Hn Hkey. cbv zeta.
  rewrite (handler_after_extraction parseCurrency Hreach). cbv zeta.
  apply Nat.ltb_lt in Hn. rewrite Hn.
  fold (primaryCall qs).
  rewrite (fetchSerp_no_key parseCurrency w qs _ Hkey).
  reflexivity.
Qed.

(** When [fetch] fails, or the provider's body is not JSON, the fallback
    client has sent its one request and the error it throws becomes the 500
    answer; the cache is left alone. *)
Theorem fallback_transport_failure (w : World) (event : Event) (c : Cache)
        (qs key : string) (html : Document) (error : JsError) :
  primaryExtraction w event c qs html ->
  (List.length (extract html qs) < 3)%nat ->
  SERP_KEY w = Some key -> truthy key = true ->
  serpapi w = inl error
  \/ (exists r, serpapi w = inr r /\ ok r = true /\ json r = inl error) ->
  handler parseCurrency w event c
  = (response500 error, c,
     [primaryCall qs; FetchSerp qs; SerpApiGet (serpParams qs key)]).
Proof.
  intros Hreach Hn Hkey Htruthy Hfail.
  rewrite (handler_after_extraction parseCurrency Hreach). cbv zeta.
  apply Nat.ltb_lt in Hn. rewrite Hn.
  fold (primaryCall qs).
  rewrite (fetchSerp_transport parseCurrency w qs _ Hkey Htruthy Hfail).
  reflexivity.
Qed.

(** A provider result without a [shipping] member makes the mapping of the
    fallback client throw, like one without a price: the request ends with
    the 500 answer and the cache is left alone. *)
Theorem missing_shipping_ends_in_500 (w : World) (event : Event) (c : Cache)
        (qs key : string) (html : Document) (r : SerpResponse)
        (results : list Organic.t) (it : Organic.t) :
  primaryExtraction w event c qs html ->
  (List.length (extract html qs) < 3)%nat ->
  SERP_KEY w = Some key -> truthy key = true ->
  serpapi w = inr r -> ok r = true -> json r = inr (Some results) ->
  In it results -> Organic.shipping it = ShippingAbsent ->
  (exists message,
      toSoldItem parseCurrency (now_iso w) it = inl (TypeError message))
  /\ exists error trace,
      handler parseCurrency w event c = (response500 error, c, trace).
Proof.
  intros Hreach Hn Hkey Htruthy Hserp Hok Hjson Hin Hship.
  assert (Hthrow : exists message,
             toSoldItem parseCurrency (now_iso w) it = inl (TypeError message)).
  { unfold toSoldItem. destruct (Organic.price it); [|eexists; reflexivity].
    rewrite Hship. simpl. eexists; reflexivity. }
  split; [exact Hthrow |].
  destruct Hthrow as [message Hthrow].
  destruct (mapE_throws (toSoldItem parseCurrency (now_iso w)) results it
              Hin Hthrow) as [e He].
  rewrite (handler_after_extraction parseCurrency Hreach). cbv zeta.
  apply Nat.ltb_lt in Hn. rewrite Hn.
  unfold fetchSerp. run_monad.
  rewrite Hkey, Htruthy, Hserp. simpl. rewrite Hok, Hjson. simpl.
  rewrite He. simpl. eexists. eexists. reflexivity.
Qed.

End HandlerMore.

(* ================================================================= *)
(** ** Further properties: what every invocation keeps *)

Section HandlerInvariants.
Open Scope string_scope.
Variable parseCurrency : string -> option Parsed.t.

Local Abbreviation extract := (extractSellItemsFromHTML parseCurrency).

(** One invocation makes no call at all, or calls the primary provider
    once and then, at most, enters the fallback client once, which sends at
    most one request: the fallback never comes first and nothing is
    retried. *)
Theorem calls_of_one_invocation (w : World) (event : Event) (c : Cache) :
  snd (handler parseCurrency w event c) = []
  \/ exists qs,
      q event = Some qs
      /\ (snd (handler parseCurrency w event c) = [primaryCall qs]
          \/ snd (handler parseCurrency w event c)
             = [primaryCall qs; FetchSerp qs]
          \/ exists key,
              SERP_KEY w = Some key
              /\ snd (handler parseCurrency w event c)
                 = [primaryCall qs; FetchSerp qs; SerpApiGet (serpParams qs key)]).
Proof.
  rewrite handler_paths.
  destruct (q event) as [qs|]; [|now left].
  destruct (allWhiteSpace qs); [now left |].
  destruct (lookup _ qs c); [now left |].
  destruct (String.eqb (httpMethod event) "OPTIONS"); [now left |].
  right. exists qs. split; [reflexivity |].
  destruct (scrapingbee w) as [e | html]; [now left |].
  cbv zeta.
  destruct (List.length (extract html qs) <? 3)%nat; [|now left].
  right.
  destruct (fetchSerp_calls parseCurrency w qs
              {| cache := c; calls := [primaryCall qs] |})
    as [Hcalls | (key & Hkey & Hcalls)];
    destruct (fetchSerp parseCurrency w qs _) as [[e | fetched] s'];
    simpl in *; rewrite Hcalls; simpl; eauto.
Qed.

(** Every answer is a 200, a 400 or a 500.  The 400 answer is the only one
    without the CORS headers; the 500 answer always carries the text
    [Internal Server Error] next to the thrown value. *)
Theorem statuses_and_headers (w : World) (event : Event) (c : Cache) :
  let response := fst (fst (handler parseCurrency w event c)) in
  (statusCode response = 200%nat /\ headers response = Some AllowAll
   /\ ((exists payload, body response = PayloadBody payload)
       \/ response = responsePreflight))
  \/ response = response400
  \/ exists error, response = response500 error.
Proof.
  cbv zeta. rewrite handler_paths.
  destruct (q event) as [qs|]; [|now right; left].
  destruct (allWhiteSpace qs); [now right; left |].
  destruct (lookup _ qs c) as [cached|].
  { left. simpl. repeat split. left. now exists cached. }
  destruct (String.eqb (httpMethod event) "OPTIONS").
  { left. simpl. repeat split. now right. }
  destruct (scrapingbee w) as [e | html].
  { right; right. now exists e. }
  cbv zeta.
  destruct (List.length (extract html qs) <? 3)%nat.
  - destruct (fetchSerp parseCurrency w qs _) as [[e | fetched] s']; simpl.
    + right; right. now exists e.
    + left. repeat split. left. eexists. reflexivity.
  - left. simpl. repeat split. left. eexists. reflexivity.
Qed.

(** An invocation leaves the cache as it was or writes a whole entry. *)
Lemma handler_writes_entry (w : World) (event : Event) (c : Cache) :
  snd (fst (handler parseCurrency w event c)) = c
  \/ exists qs items source,
      validQuery qs = true
      /\ snd (fst (handler parseCurrency w event c))
         = {| data := Some (mkPayload qs (calculateSalesMetrics items) items
                                      source true);
              timestamp := now_store w; query := qs |}
      /\ ((source = "scrapingbee" /\ (3 <= List.length items)%nat
           /\ Forall onlyTitleAndPrice items)
          \/ (source = "serpapi" /\ Forall (fun x => retained x = true) items)).
Proof.
  rewrite handler_paths.
  destruct (q event) as [qs|]; [|now left].
  destruct (allWhiteSpace qs) eqn:Hvalid; [now left |].
  apply validQuery_iff in Hvalid.
  destruct (lookup _ qs c); [now left |].
  destruct (String.eqb (httpMethod event) "OPTIONS"); [now left |].
  destruct (scrapingbee w) as [e | html]; [now left |].
  cbv zeta.
  destruct (List.length (extract html qs) <? 3)%nat eqn:Hn.
  - pose proof (fetchSerp_store parseCurrency w qs
                  {| cache := c; calls := [primaryCall qs] |}) as [Hcache _].
    destruct (fetchSerp parseCurrency w qs _) as [[e | fetched] s'] eqn:Hfetch.
    + left. exact Hcache.
    + right.
      exists qs, (match fetched with Some l => l | None => [] end), "serpapi".
      split; [exact Hvalid |]. split; [reflexivity |].
      right. split; [reflexivity |].
      destruct fetched as [items|]; [|constructor].
      exact (fetchSerp_filtered _ _ _ _ Hfetch).
  - right. exists qs, (extract html qs), "scrapingbee".
    split; [exact Hvalid |]. split; [reflexivity |].
    left. split; [reflexivity |].
    split; [now apply Nat.ltb_ge | apply extract_only_title_price].
Qed.

Lemma reachable_entry (c : Cache) :
  Reachable parseCurrency c -> entryInvariant c.
Proof.
  induction 1 as [|w event c Hreach IH Hclock].
  - reflexivity.
  - destruct (handler_writes_entry w event c)
      as [-> | (qs & items & source & Hvalid & -> & Hsource)].
    + exact IH.
    + unfold entryInvariant. simpl. repeat split; auto.
Qed.

(** Every cache a warm process can hold is either the untouched initial
    one or holds one whole entry: marked [cached: true], keyed by the valid
    query it answers, stamped with a time, with stats that are the stats of
    its items, and either from the primary source with three or more
    title-and-price listings or from the fallback source with listings that
    all passed its filter. *)
Theorem stored_entry_is_whole (c : Cache) :
  Reachable parseCurrency c -> entryInvariant c.
Proof.
  intros Hreach.
  induction Hreach as [|w event c Hreach IH Hclock].
  - reflexivity.
  - destruct (handler_writes_entry w event c)
      as [-> | (qs & items & source & Hvalid & -> & Hsource)].
    + exact IH.
    + unfold entryInvariant. simpl. repeat split; auto.
Qed.

(** The [cached] flag of an answer tells where it came from.  With a cache
    a warm process can hold, a payload marked [cached: true] is the stored
    entry, sent without any call; a payload marked [cached: false] was
    computed by this invocation, which called the primary provider and has
    just stored the copy. *)
Theorem cached_flag_tells_origin (w : World) (event : Event) (c : Cache)
        (p : Payload) :
  Reachable parseCurrency c ->
  body (fst (fst (handler parseCurrency w event c))) = PayloadBody p ->
  (p_cached p = true ->
   data c = Some p
   /\ snd (handler parseCurrency w event c) = []
   /\ snd (fst (handler parseCurrency w event c)) = c)
  /\ (p_cached p = false ->
      data (snd (fst (handler parseCurrency w event c))) = Some (storedCopy p)
      /\ exists more,
          snd (handler parseCurrency w event c) = primaryCall (p_query p) :: more).
Proof.
  intros Hreach.
  pose proof (reachable_entry Hreach) as Hinv.
  rewrite handler_paths.
  destruct (q event) as [qs|]; [|discriminate].
  destruct (allWhiteSpace qs); [discriminate |].
  destruct (lookup _ qs c) as [cached|] eqn:Hlook.
  { simpl. intros H. inversion H; subst.
    assert (Hdata : data c = Some p).
    { unfold lookup in Hlook. destruct (data c) as [entry|]; [|discriminate].
      destruct (durationFromLastFetch (now_check w) c); [|discriminate].
      destruct (_ && _); [|discriminate]. exact Hlook. }
    unfold entryInvariant in Hinv. rewrite Hdata in Hinv.
    destruct Hinv as (Hflag & _).
    split; [auto | intros Hfalse; congruence]. }
  destruct (String.eqb (httpMethod event) "OPTIONS"); [discriminate |].
  destruct (scrapingbee w) as [e | html]; [discriminate |].
  cbv zeta.
  destruct (List.length (extract html qs) <? 3)%nat.
  - pose proof (fetchSerp_store parseCurrency w qs
                  {| cache := c; calls := [primaryCall qs] |})
      as [_ [more Hcalls]].
    destruct (fetchSerp parseCurrency w qs _) as [[e | fetched] s'];
      simpl in *; [discriminate |].
    intros H. inversion H; subst; simpl.
    split; [discriminate |].
    intros _. split; [reflexivity |]. rewrite Hcalls. eexists; reflexivity.
  - simpl. intros H. inversion H; subst; simpl.
    split; [discriminate |].
    intros _. split; [reflexivity | now exists []].
Qed.

(** The cache has one slot: once a run for one query has answered with a
    payload, a request for any other query finds nothing, however early it
    comes. *)
Theorem single_slot_overwrite (w : World) (event : Event) (c : Cache)
        (qs other : string) (html : Document) (p : Payload) (now : Z) :
  primaryExtraction w event c qs html ->
  body (fst (fst (handler parseCurrency w event c))) = PayloadBody p ->
  other <> qs ->
  let c' := snd (fst (handler parseCurrency w event c)) in
  query c' = qs
  /\ lookup (durationFromLastFetch now c') other c' = None.
Proof.
  intros Hreach Hbody Hother. cbv zeta.
  destruct (fresh_answer_store parseCurrency Hreach Hbody) as (-> & _).
  split; [reflexivity |].
  unfold lookup. simpl.
  destruct (durationFromLastFetch now _); [|reflexivity].
  assert (Hneq : String.eqb qs other = false)
    by (apply String.eqb_neq; congruence).
  rewrite Hneq. now rewrite andb_false_r.
Qed.

End HandlerInvariants.

(* ================================================================= *)
(** ** The further properties at sample inputs *)

Lemma parsePrice_blank_or_delegates_witness :
  parsePrice sampleParseCurrency "  " = None
  /\ parsePrice sampleParseCurrency "$10.00" = sampleParseCurrency "$10.00".
Proof.
  split.
  - apply (proj1 (parsePrice_blank_or_delegates sampleParseCurrency "  ")).
    reflexivity.
  - apply (proj2 (parsePrice_blank_or_delegates sampleParseCurrency "$10.00")).
    reflexivity.
Defined.


(** [Free delivery] costs 0; [+$4.00 delivery 3 bids] is unknown. *)
Lemma getShippingCost_text_witness :
  getShippingCost sampleParseCurrency (ShippingString "Free delivery")
  = inr (ShipCost 0%float)
  /\ getShippingCost sampleParseCurrency (ShippingString "+$4.00 delivery 3 bids")
     = inr ShipUnknown.
Proof.
  split.
  - destruct (getShippingCost_text sampleParseCurrency "Free delivery")
      as (_ & _ & Hfree & _).
    apply Hfree. reflexivity.
  - destruct (getShippingCost_text sampleParseCurrency "+$4.00 delivery 3 bids")
      as (_ & Hunknown & _).
    apply Hunknown. split; reflexivity.
Defined.

Lemma fallback_listings_complete_witness :
  Forall completeListing
         (match fst (fetchSerp sampleParseCurrency
                       (sampleWorld [] (serpOk [organicNoThumbnail; organicNoLink]))
                       "red widget" emptyStore) with
          | inr (Some items) => items
          | _ => []
          end).
Proof.
  apply (@fallback_listings_complete sampleParseCurrency
           (sampleWorld [] (serpOk [organicNoThumbnail; organicNoLink]))
           "red widget" emptyStore
           (snd (fetchSerp sampleParseCurrency
                   (sampleWorld [] (serpOk [organicNoThumbnail; organicNoLink]))
                   "red widget" emptyStore))).
  reflexivity.
Defined.

(** Two results, one listing. *)
Lemma fallback_listings_from_results_witness :
  exists items,
    fst (fetchSerp sampleParseCurrency
           (sampleWorld [] (serpOk [organicNoThumbnail; organicNoLink]))
           "red widget" emptyStore) = inr (Some items)
    /\ (List.length items <= 2)%nat.
Proof.
  eexists. split; [reflexivity |].
  destruct (@fallback_listings_from_results sampleParseCurrency
              (sampleWorld [] (serpOk [organicNoThumbnail; organicNoLink]))
              "red widget" emptyStore _ _ eq_refl)
    as (r & results & mapped & Hserp & Hjson & _ & _ & Hlen).
  inversion Hserp; subst r. inversion Hjson; subst results. exact Hlen.
Defined.

(** A price range has no [raw] text: the result is mapped to price 0 and
    left out. *)
Lemma fallback_drops_unparsed_price_witness :
  exists x,
    toSoldItem sampleParseCurrency "2025-01-01T00:00:00.000Z" organicPriceRange
    = inr x
    /\ Item.price x = Some 0%float
    /\ fst (fetchSerp sampleParseCurrency
              (sampleWorld [] (serpOk [organicNoThumbnail; organicPriceRange]))
              "red widget" emptyStore)
       = inr (Some (filter retained
                      (match mapE (toSoldItem sampleParseCurrency
                                     "2025-01-01T00:00:00.000Z")
                                  [organicNoThumbnail] with
                       | inr l => l
                       | inl _ => []
                       end))).
Proof.
  eexists. split; [reflexivity |].
  split; [|reflexivity].
  apply (@fallback_drops_unparsed_price sampleParseCurrency
           (sampleWorld [] (serpOk [organicNoThumbnail; organicPriceRange]))
           "red widget" emptyStore _ _ organicPriceRange
           {| Organic.raw := None |} _ eq_refl eq_refl eq_refl eq_refl).
Defined.

Lemma stats_of_priceless_listings_witness :
  calculateSalesMetrics
    (extractSellItemsFromHTML sampleParseCurrency
       [cardNoPrice; cardNoPrice] "red widget")
  = {| count := 2; p25 := None; median := None; p75 := None |}.
Proof.
  apply (@stats_of_priceless_listings
           (extractSellItemsFromHTML sampleParseCurrency
              [cardNoPrice; cardNoPrice] "red widget")).
  repeat constructor.
Defined.

Lemma stats_of_single_listing_witness :
  calculateSalesMetrics [listingAt 12.5%float]
  = {| count := 1; p25 := Some 12.5%float; median := Some 12.5%float;
       p75 := Some 12.5%float |}.
Proof.
  apply (@stats_of_single_listing (listingAt 12.5%float) 12.5%float).
  reflexivity.
Defined.

(** Prices 4 and 2: the quantiles are 2.5, 3 and 3.5. *)
Lemma stats_of_two_listings_witness :
  calculateSalesMetrics [listingAt 4%float; listingAt 2%float]
  = {| count := 2; p25 := Some 2.5%float; median := Some 3%float;
       p75 := Some 3.5%float |}.
Proof.
  exact (@stats_of_two_listings (listingAt 4%float) (listingAt 2%float)
           4%float 2%float eq_refl eq_refl).
Defined.

Lemma extractor_price_present_iff_witness :
  Item.price (resultData sampleParseCurrency cardPriced) <> None
  /\ ~ (Item.price (resultData sampleParseCurrency cardNoPrice) <> None).
Proof.
  split.
  - apply (proj2 (extractor_price_present_iff sampleParseCurrency cardPriced)).
    split; [reflexivity | discriminate].
  - intros H.
    apply (proj1 (extractor_price_present_iff sampleParseCurrency cardNoPrice))
      in H.
    destruct H as [H _]. discriminate H.
Defined.

(** A query of two spaces is refused, and the stored entry stays. *)
Lemma bad_request_iff_blank_query_witness :
  handler sampleParseCurrency (sampleWorld [] serpUnavailable)
          blankEvent sampleStored
  = (response400, sampleStored, []).
Proof.
  apply (proj1 (bad_request_iff_blank_query sampleParseCurrency
                  (sampleWorld [] serpUnavailable) blankEvent sampleStored)).
  right. exists "  "%string. split; reflexivity.
Defined.

(** A preflight for [red widget]: answered with the preflight text while
    the cache is empty, and with the stored payload once the cache holds the
    answer. *)
Lemma preflight_is_local_witness :
  handler sampleParseCurrency (sampleWorld [] serpUnavailable)
          preflightEvent initialCache
  = (responsePreflight, initialCache, [])
  /\ exists entry,
      data sampleStored = Some entry
      /\ fst (fst (handler sampleParseCurrency (sampleWorld [] serpUnavailable)
                      preflightEvent sampleStored))
         = response200 entry.
Proof.
  split.
  - destruct (@preflight_is_local sampleParseCurrency
                (sampleWorld [] serpUnavailable) preflightEvent initialCache
                eq_refl) as (Hcalls & Hcache & _ & _ & _ & Hanswer & _).
    specialize (Hanswer "red widget"%string eq_refl eq_refl eq_refl).
    destruct (handler sampleParseCurrency (sampleWorld [] serpUnavailable)
                preflightEvent initialCache) as [[response c'] trace].
    simpl in *. now subst.
  - destruct (@preflight_is_local sampleParseCurrency
                (sampleWorld [] serpUnavailable) preflightEvent sampleStored
                eq_refl) as (_ & _ & _ & _ & Hhit & _).
    eexists. split; [reflexivity |].
    apply (Hhit "red widget"%string); reflexivity.
Defined.

Lemma fresh_answer_is_stored_witness :
  exists p,
    body (fst (fst (handler sampleParseCurrency
                      (sampleWorld [cardPriced; cardPriced; cardPriced]
                                   serpUnavailable)
                      sampleEvent initialCache))) = PayloadBody p
    /\ sampleStored
       = {| data := Some (storedCopy p); timestamp := 2000;
            query := "red widget" |}.
Proof.
  eexists. split; [reflexivity |].
  exact (proj1 (@fresh_answer_is_stored sampleParseCurrency
                  (sampleWorld [cardPriced; cardPriced; cardPriced]
                               serpUnavailable)
                  sampleEvent initialCache "red widget"
                  [cardPriced; cardPriced; cardPriced] _
                  (sample_reaches_extraction _ _) eq_refl)).
Defined.

(** The same query, 3599999 ms after the write. *)
Lemma stored_answer_round_trip_witness :
  exists p,
    body (fst (fst (handler sampleParseCurrency
                      (sampleWorld [cardPriced; cardPriced; cardPriced]
                                   serpUnavailable)
                      sampleEvent initialCache))) = PayloadBody p
    /\ handler sampleParseCurrency laterWorld sampleEvent sampleStored
       = (response200 (storedCopy p), sampleStored, []).
Proof.
  eexists. split; [reflexivity |].
  apply (@stored_answer_round_trip sampleParseCurrency
           (sampleWorld [cardPriced; cardPriced; cardPriced] serpUnavailable)
           laterWorld sampleEvent sampleEvent initialCache "red widget"
           [cardPriced; cardPriced; cardPriced] _
           (sample_reaches_extraction _ _) eq_refl).
  - discriminate.
  - reflexivity.
  - reflexivity.
Defined.

(** The same query, 3600000 ms after the write: fetched again. *)
Lemma stale_or_other_query_refetches_witness :
  exists more,
    snd (handler sampleParseCurrency expiredWorld sampleEvent sampleStored)
    = primaryCall "red widget" :: more.
Proof.
  apply (@stale_or_other_query_refetches sampleParseCurrency expiredWorld
           sampleEvent sampleStored "red widget" eq_refl eq_refl eq_refl).
  right. vm_compute. discriminate.
Defined.

Lemma primary_failure_skips_fallback_witness :
  handler sampleParseCurrency primaryDownWorld sampleEvent initialCache
  = (response500 (Error "Request failed with status code 500"),
     initialCache, [primaryCall "red widget"]).
Proof.
  apply (@primary_failure_skips_fallback sampleParseCurrency primaryDownWorld
           sampleEvent initialCache "red widget"
           (Error "Request failed with status code 500"));
    reflexivity.
Defined.

Lemma missing_key_gives_empty_answer_witness :
  handler sampleParseCurrency (noKeyWorld [cardPriced]) sampleEvent initialCache
  = (response200
       (mkPayload "red widget"
          {| count := 0; p25 := None; median := None; p75 := None |}
          [] "serpapi" false),
     {| data := Some (mkPayload "red widget"
                        {| count := 0; p25 := None; median := None; p75 := None |}
                        [] "serpapi" true);
        timestamp := 2000; query := "red widget" |},
     [primaryCall "red widget"; FetchSerp "red widget"]).
Proof.
  apply (@missing_key_gives_empty_answer sampleParseCurrency
           (noKeyWorld [cardPriced]) sampleEvent initialCache
           "red widget" [cardPriced]).
  - repeat split.
  - simpl. lia.
  - left. reflexivity.
Defined.

Lemma fallback_transport_failure_witness :
  handler sampleParseCurrency (sampleWorld [] fetchFailed) sampleEvent initialCache
  = (response500 (TypeError "fetch failed"), initialCache,
     [primaryCall "red widget"; FetchSerp "red widget";
      SerpApiGet (serpParams "red widget" "key")]).
Proof.
  apply (@fallback_transport_failure sampleParseCurrency
           (sampleWorld [] fetchFailed) sampleEvent initialCache
           "red widget" "key" [] (TypeError "fetch failed")
           (sample_reaches_extraction _ _)).
  - simpl. lia.
  - reflexivity.
  - reflexivity.
  - left. reflexivity.
Defined.

Lemma missing_shipping_ends_in_500_witness :
  exists error trace,
    handler sampleParseCurrency
            (sampleWorld [] (serpOk [organicNoThumbnail; organicNoShipping]))
            sampleEvent initialCache
    = (response500 error, initialCache, trace).
Proof.
  refine (proj2 (@missing_shipping_ends_in_500 sampleParseCurrency
                   (sampleWorld [] (serpOk [organicNoThumbnail; organicNoShipping]))
                   sampleEvent initialCache "red widget" "key" []
                   {| ok := true; status := 200;
                      json := inr (Some [organicNoThumbnail; organicNoShipping]) |}
                   [organicNoThumbnail; organicNoShipping] organicNoShipping
                   (sample_reaches_extraction [] _) _ eq_refl eq_refl eq_refl
                   eq_refl eq_refl _ eq_refl)).
  - simpl. lia.
  - simpl. auto.
Defined.

Lemma stored_entry_is_whole_witness : entryInvariant sampleStored.
Proof.
  exact (@stored_entry_is_whole sampleParseCurrency sampleStored
           sampleStored_reachable).
Defined.

Lemma cached_flag_tells_origin_witness :
  exists p,
    data sampleStored = Some p
    /\ snd (handler sampleParseCurrency laterWorld sampleEvent sampleStored) = [].
Proof.
  destruct (@cached_flag_tells_origin sampleParseCurrency laterWorld sampleEvent
              sampleStored _ sampleStored_reachable eq_refl) as [Hcached _].
  destruct (Hcached eq_refl) as (Hdata & Hcalls & _).
  eexists. split; [exact Hdata | exact Hcalls].
Defined.

(** After the answer for [red widget] is stored, [blue widget] finds
    nothing one millisecond later. *)
Lemma single_slot_overwrite_witness :
  query sampleStored = "red widget"%string
  /\ lookup (durationFromLastFetch 2001 sampleStored) "blue widget" sampleStored
     = None.
Proof.
  apply (@single_slot_overwrite sampleParseCurrency
           (sampleWorld [cardPriced; cardPriced; cardPriced] serpUnavailable)
           sampleEvent initialCache "red widget" "blue widget"
           [cardPriced; cardPriced; cardPriced]
           (mkPayload "red widget"
              (calculateSalesMetrics
                 (extractSellItemsFromHTML sampleParseCurrency
                    [cardPriced; cardPriced; cardPriced] "red widget"))
              (extractSellItemsFromHTML sampleParseCurrency
                 [cardPriced; cardPriced; cardPriced] "red widget")
              "scrapingbee" false)
           2001 (sample_reaches_extraction _ _) eq_refl).
  discriminate.
Defined.
